(** * gods: a status line for dwm, checked against its specification

    The repository holds two versions of [gods.go] and one helper file.
    - The helper file defines [Hash], [parseFile], [SearchForInt] and
      [GetInt]: a key=value table read from a battery's [uevent] file.
    - The first [gods.go] (module [Uevent] below) shows the network
      traffic as arrows and reads the batteries through [parseFile].
    - The second [gods.go] (module [Discrete] below) shows the network
      traffic as rates through [fixed] and reads one file per battery
      field through [readval].
    [colored], [updateMemUse], [updateCPUUse], [getHostname] and [main]
    are the same text in both versions.

    Conventions of the embedding.
    - A Go [string] or [[]byte] is a Rocq [string]: a sequence of 8-bit
      characters.  Bytes that are not printable ASCII are written with
      their decimal code.
    - A Go [int] is a [Z] kept in the 64-bit two's-complement range:
      every arithmetic result goes through [wrap].
    - A [float32] is a [spec_float] of the Standard Library's IEEE 754
      specification at precision 24 and exponent bound 128.
    - The file system is a record of functions ([fs]); the behaviour of
      the Go library the program cannot fix by itself ([fmt.Sscanf],
      [strings.TrimSpace], the conversion of an out-of-range float to an
      integer) is a record of functions too ([golib]; [loadlib] for what
      [updateCPUUse] alone needs).
    - A sampler returns an [outcome]: the string it returns, or the
      run-time panic it dies of. *)

From Stdlib Require Import ZArith Lia Bool Ascii String.
From Stdlib Require Import Numbers.DecimalString.
From Stdlib Require Import Floats.SpecFloat.
From stdpp Require Import base option list gmap strings.

Local Open Scope string_scope.
Local Open Scope Z_scope.

(** ** Go's [int] on a 64-bit platform *)

Definition int_min : Z := - 2 ^ 63.
Definition int_max : Z := 2 ^ 63 - 1.

Definition in_int (z : Z) : bool := (int_min <=? z) && (z <=? int_max).

(** Two's-complement wrap-around of an arithmetic result. *)
Definition wrap (z : Z) : Z := (z + 2 ^ 63) mod 2 ^ 64 - 2 ^ 63.

Definition int_add (a b : Z) : Z := wrap (a + b).
Definition int_sub (a b : Z) : Z := wrap (a - b).
Definition int_mul (a b : Z) : Z := wrap (a * b).

(** A run-time panic of the Go program. *)
Inductive panic : Type :=
| DivideByZero
| IndexOutOfRange.

(** What a call of a sampler ends in. *)
Inductive outcome : Type :=
| Returned (s : string)
| Panicked (p : panic).

(** [a / b] on [int]: truncated towards zero, a panic when [b] is zero;
    the most negative value divided by -1 wraps to itself. *)
Definition int_div (a b : Z) : panic + Z :=
  if b =? 0 then inl DivideByZero else inr (wrap (Z.quot a b)).

(** ** Strings *)

Definition digit_of (c : ascii) : option Z :=
  let n := Z.of_N (N_of_ascii c) in
  if (48 <=? n) && (n <=? 57) then Some (n - 48) else None.

Fixpoint parse_digits (s : string) (acc : Z) : option Z :=
  match s with
  | EmptyString => Some acc
  | String c r =>
      match digit_of c with
      | Some d => parse_digits r (acc * 10 + d)
      | None => None
      end
  end.

(** [strconv.Atoi]: an optional sign, then at least one decimal digit and
    nothing else; [None] stands for a non-nil error (syntax or range). *)
Definition Atoi (s : string) : option Z :=
  match s with
  | EmptyString => None
  | String c r =>
      let neg := Ascii.eqb c "-" in
      let body := if neg || Ascii.eqb c "+" then r else s in
      match body with
      | EmptyString => None
      | _ =>
          match parse_digits body 0 with
          | Some n =>
              let v := if neg then - n else n in
              if in_int v then Some v else None
          | None => None
          end
      end
  end.

(** The decimal digits of an integer, with a minus sign when negative:
    what the verb [%d] prints. *)
Definition itoa (z : Z) : string := NilZero.string_of_int (Z.to_int z).

Fixpoint repeat_char (c : ascii) (n : nat) : string :=
  match n with
  | O => EmptyString
  | S k => String c (repeat_char c k)
  end.

(** Padding on the left with spaces up to a width: [%3d], [%4.1f]. *)
Definition pad_left (width : nat) (s : string) : string :=
  repeat_char " " (width - String.length s) +:+ s.

Definition fmt_d (z : Z) : string := itoa z.
Definition fmt_3d (z : Z) : string := pad_left 3 (itoa z).

(** [%02d]: zeros up to width 2, put after the sign. *)
Definition fmt_02d (z : Z) : string :=
  if z <? 0
  then "-" +:+ repeat_char "0" (1 - String.length (itoa (- z))) +:+ itoa (- z)
  else repeat_char "0" (2 - String.length (itoa z)) +:+ itoa z.

(** [strings.Split(s, sep)] for a separator of one byte: the pieces
    between the occurrences of [sep], one more than there are
    occurrences. *)
Fixpoint Split (s : string) (sep : ascii) : list string :=
  match s with
  | EmptyString => [EmptyString]
  | String c r =>
      if Ascii.eqb c sep then EmptyString :: Split r sep
      else match Split r sep with
           | piece :: pieces => String c piece :: pieces
           | [] => [String c EmptyString]
           end
  end.

(** [strings.HasPrefix(s, p)]. *)
Definition HasPrefix (s p : string) : bool := String.prefix p s.

(** ** The file system and the Go library *)

(** - [ReadFile p]: [ioutil.ReadFile], [None] for an error;
    - [ReadDir p]: the names of the entries [ioutil.ReadDir] returns,
      sorted by name, [None] for an error;
    - [OpenLines p]: [os.Open] followed by a [bufio.Scanner] over the
      file: the successive values of [scanner.Text()], [None] when the
      file cannot be opened. *)
Record fs : Type := {
  ReadFile : string -> option string;
  ReadDir : string -> option (list string);
  OpenLines : string -> option (list string)
}.

(** ** The key=value table (helper file) *)

Record Hash : Type := { values : gmap string string }.

Definition parse_line (h : gmap string string) (text : string)
  : gmap string string :=
  match Split text "=" with
  | [k; v] => <[k := v]> h
  | _ => h
  end.

Definition parseFile (F : fs) (path : string) : Hash :=
  match OpenLines F path with
  | None => {| values := ∅ |}
  | Some lines => {| values := fold_left parse_line lines ∅ |}
  end.

Definition GetInt (h : Hash) (field : string) : Z :=
  match Atoi (default "" (values h !! field)) with
  | Some convertedValue => convertedValue
  | None => 0
  end.

Fixpoint SearchForInt (h : Hash) (fields : list string) : Z :=
  match fields with
  | [] => 0
  | field :: rest =>
      match values h !! field with
      | Some _ => GetInt h field
      | None => SearchForInt h rest
      end
  end.


(** [strings.Replace(s, old, new, 1)] for an [old] of one byte: the first
    occurrence is replaced. *)
Fixpoint Replace1 (s : string) (old : ascii) (new : string) : string :=
  match s with
  | EmptyString => EmptyString
  | String c r =>
      if Ascii.eqb c old then new +:+ r else String c (Replace1 r old new)
  end.

(** ** [float32] *)

Definition float32_of_int (n : Z) : spec_float := binary_normalize 24 128 n 0 false.
Definition f32_div (x y : spec_float) : spec_float := SFdiv 24 128 x y.
Definition f32_mul (x y : spec_float) : spec_float := SFmul 24 128 x y.
(** [x >= y]; false when one side is not a number. *)
Definition f32_geb (x y : spec_float) : bool := SFleb y x.

(** The integer part of a float, towards zero; [None] for an infinity or
    a NaN. *)
Definition trunc_float (x : spec_float) : option Z :=
  match x with
  | S754_zero _ => Some 0
  | S754_finite s m e =>
      let a := if 0 <=? e then Z.pos m * 2 ^ e else Z.pos m / 2 ^ (- e) in
      Some (if s then - a else a)
  | _ => None
  end.

(** The float32 nearest to a positive integer [n], as a mantissa of 24
    bits and an exponent: [n] itself when it has at most 24 bits;
    otherwise its leading 24 bits, plus one when the bits dropped are
    more than half a unit, or are half a unit next to an odd mantissa;
    a mantissa that overflows to 25 bits is halved. *)
Definition nearest24 (n : Z) : Z * Z :=
  let d := Z.log2 n + 1 in
  if d <=? 24 then (n * 2 ^ (24 - d), d - 24)
  else
    let k := d - 24 in
    let q := n / 2 ^ k in
    let up := Z.odd (n / 2 ^ (k - 1)) && (negb (n mod 2 ^ (k - 1) =? 0) || Z.odd q) in
    let m := if up then q + 1 else q in
    if m <? 2 ^ 24 then (m, k) else (2 ^ 23, k + 1).

(** The digits of [%.<prec>f] for the positive value [m * 2^e]: the exact
    value times [10^prec], rounded to the nearest integer, a tie to the
    even one. *)
Definition round_decimal (m : positive) (e : Z) (prec : nat) : Z :=
  let num := Z.pos m * 2 ^ Z.max e 0 * 10 ^ Z.of_nat prec in
  let den := 2 ^ Z.max (- e) 0 in
  let q := num / den in
  let r := num mod den in
  if (den <? 2 * r) || ((den =? 2 * r) && Z.odd q) then q + 1 else q.

Definition decimal_point (scaled : Z) (prec : nat) : string :=
  let int_part := scaled / 10 ^ Z.of_nat prec in
  let frac := itoa (scaled mod 10 ^ Z.of_nat prec) in
  match prec with
  | O => itoa int_part
  | _ => itoa int_part +:+ "." +:+ repeat_char "0" (prec - String.length frac) +:+ frac
  end.

(** [fmt.Sprintf("%<width>.<prec>f", x)]. *)
Definition fmt_f (width prec : nat) (x : spec_float) : string :=
  pad_left width
    match x with
    | S754_zero s => (if s then "-" else "") +:+ decimal_point 0 prec
    | S754_finite s m e =>
        (if s then "-" else "") +:+ decimal_point (round_decimal m e prec) prec
    | S754_infinity s => if s then "-Inf" else "+Inf"
    | S754_nan => "NaN"
    end.

(** What the program takes from the Go library and run time without
    fixing it:
    - [Sscanf_net text (dev, rx, tx)]: the call of [fmt.Sscanf] in
      [updateNetUse], on the line [text], with the values the variables
      [dev], [rx] and [tx] hold before the call; it returns what they
      hold after it (a scan that fails half-way leaves the later ones as
      they were; the error is dropped by the caller);
    - [Sscanf_mem text]: the call of [fmt.Sscanf] with ["%s %d"] in
      [updateMemUse]: the two values scanned, [None] for an error;
    - [TrimSpace]: [strings.TrimSpace];
    - [float_to_int_oor x]: the result of [int(x)] when [x] is not a
      number or its integer part is outside [int]; the language leaves it
      to the implementation.
    The integers among the results are values of type [int]. *)
Record golib : Type := {
  Sscanf_net : string -> string * Z * Z -> string * Z * Z;
  Sscanf_mem : string -> option (string * Z);
  TrimSpace : string -> string;
  float_to_int_oor : spec_float -> Z
}.

(** [int(x)] for a [float32] [x]. *)
Definition int_of_float32 (L : golib) (x : spec_float) : Z :=
  match trunc_float x with
  | Some z => if in_int z then z else wrap (float_to_int_oor L x)
  | None => wrap (float_to_int_oor L x)
  end.

(** ** Constants of both versions *)

(** The colour escapes of the statuscolors patch: bytes 1, 3, 4 and 6. *)
Definition c01 : string := String "001" "".
Definition c03 : string := String "003" "".
Definition c04 : string := String "004" "".
Definition c06 : string := String "006" "".

Definition unpluggedSign : string := "BAT".
Definition pluggedSign : string := "AC".
Definition cpuSign : string := "CPU".
Definition memSign : string := "MEM".
Definition floatSeparator : string := ".".

(** The marker [updatePower] returns for an error: the two bytes of the
    battery icon, then ERR between colour escapes. *)
Definition powerErr : string :=
  String "195" (String "143" "") +:+ c03 +:+ "ERR" +:+ c01.

(** [netDevs]: the interfaces that are counted. *)
Definition netDevs : gset string := {[ "enp0s25:"; "wlp4s0:" ]}.

(** The previous totals: the package variables [rxOld] and [txOld]. *)
Record net_state : Type := { rxOld : Z; txOld : Z }.

Definition net_init : net_state := {| rxOld := 0; txOld := 0 |}.

(** The loop of [updateNetUse] over the lines of the table: the same text
    in both versions. *)
Definition net_step (L : golib) (acc : (string * Z * Z) * (Z * Z)) (text : string)
  : (string * Z * Z) * (Z * Z) :=
  let '(vars, (rxNow, txNow)) := acc in
  let '(dev, rx, tx) := Sscanf_net L text vars in
  if decide (dev ∈ netDevs)
  then ((dev, rx, tx), (int_add rxNow rx, int_add txNow tx))
  else ((dev, rx, tx), (rxNow, txNow)).

Definition net_totals (L : golib) (lines : list string) : Z * Z :=
  snd (fold_left (net_step L) lines (("", 0, 0), (0, 0))).

(** [colored]: the same text in both versions. *)
Definition colored (icon : string) (percentage : Z) : string :=
  if 100 <=? percentage then c06 +:+ icon +:+ c01 +:+ fmt_3d percentage
  else if 70 <=? percentage then c03 +:+ icon +:+ c01 +:+ fmt_3d percentage
  else icon +:+ fmt_3d percentage.

(** The loop of [updateMemUse]: [None] when a line does not scan. *)
Fixpoint mem_loop (L : golib) (lines : list string) (total used done : Z)
  : option (Z * Z) :=
  if done =? 15 then Some (total, used)
  else
    match lines with
    | [] => Some (total, used)
    | text :: rest =>
        match Sscanf_mem L text with
        | None => None
        | Some (prop, val) =>
            if String.eqb prop "MemTotal:"
            then mem_loop L rest val (int_add used val) (Z.lor done 1)
            else if String.eqb prop "MemFree:"
            then mem_loop L rest total (int_sub used val) (Z.lor done 2)
            else if String.eqb prop "Buffers:"
            then mem_loop L rest total (int_sub used val) (Z.lor done 4)
            else if String.eqb prop "Cached:"
            then mem_loop L rest total (int_sub used val) (Z.lor done 8)
            else mem_loop L rest total used done
        end
    end.

(** [updateMemUse]: the same text in both versions. *)
Definition updateMemUse (L : golib) (F : fs) : outcome :=
  match OpenLines F "/proc/meminfo" with
  | None => Returned (memSign +:+ c03 +:+ "ERR" +:+ c01)
  | Some lines =>
      match mem_loop L lines 0 0 0 with
      | None => Returned (memSign +:+ c03 +:+ "ERR" +:+ c01)
      | Some (total, used) =>
          match int_div (int_mul used 100) total with
          | inl p => Panicked p
          | inr percentage => Returned (colored memSign percentage)
          end
      end
  end.

(** The estimate of the time left, the same text in both versions:
<<
    remaining := float32(enNow) / float32(curNow)
    time_in_min := int(remaining * 60)
    hours := time_in_min / 60
    time_in_min -= hours * 60
    timeRemaining = fmt.Sprintf(" [%d:%02d]", hours, time_in_min)
>> *)
Definition time_in_min (L : golib) (enNow curNow : Z) : Z :=
  let remaining := f32_div (float32_of_int enNow) (float32_of_int curNow) in
  int_of_float32 L (f32_mul remaining (float32_of_int 60)).

Definition time_left (L : golib) (enNow curNow : Z) : string :=
  let t := time_in_min L enNow curNow in
  let hours := Z.quot t 60 in
  let t' := int_sub t (int_mul hours 60) in
  " [" +:+ fmt_d hours +:+ ":" +:+ fmt_02d t' +:+ "]".

(** The three returns that end [updatePower], the same text in both
    versions. *)
Definition power_line (icon : string) (enPerc : Z) (timeRemaining : string) : string :=
  if enPerc <=? 5
  then c06 +:+ icon +:+ " " +:+ c01 +:+ fmt_3d enPerc +:+ timeRemaining
  else if enPerc <=? 10
  then c03 +:+ icon +:+ " " +:+ c01 +:+ fmt_3d enPerc +:+ timeRemaining
  else icon +:+ " " +:+ fmt_3d enPerc +:+ timeRemaining.

(** [enNow * 100 / enFull] where [enFull] is not zero. *)
Definition percent (enNow enFull : Z) : Z := wrap (Z.quot (int_mul enNow 100) enFull).

(** ** The first version: arrows for the network, [uevent] for the batteries *)

Module Uevent.

Definition netSign : string := "NET".
Definition powerSupply : string := "/sys/class/power_supply".

(** The arrows: three bytes each. *)
Definition arrow_down : string := String "226" (String "134" (String "147" "")).
Definition arrow_up : string := String "226" (String "134" (String "145" "")).

Definition updateNetUse (L : golib) (F : fs) (st : net_state) : string * net_state :=
  match OpenLines F "/proc/net/dev" with
  | None => (netSign +:+ " " +:+ c03 +:+ "ERR" +:+ c01, st)
  | Some lines =>
      let '(rxNow, txNow) := net_totals L lines in
      let download := if int_sub rxNow (rxOld st) =? 0 then " " else arrow_down in
      let upload := if int_sub txNow (txOld st) =? 0 then " " else arrow_up in
      (netSign +:+ " " +:+ download +:+ upload,
       {| rxOld := rxNow; txOld := txNow |})
  end.

(** One turn of the loop over the entries of the directory. *)
Definition batt_step (F : fs) (acc : Z * Z * Z) (name : string) : Z * Z * Z :=
  let '(enFull, enNow, curNow) := acc in
  if negb (HasPrefix name "BAT") then acc
  else
    let batteryValues := parseFile F (powerSupply +:+ "/" +:+ name +:+ "/uevent") in
    (int_add enFull (SearchForInt batteryValues ["POWER_SUPPLY_ENERGY_FULL"; "POWER_SUPPLY_CHARGE_FULL"]),
     int_add enNow (SearchForInt batteryValues ["POWER_SUPPLY_ENERGY_NOW"; "POWR_SUPPLY_CHARGE_NOW"]),
     int_add curNow (SearchForInt batteryValues ["POWER_SUPPLY_CURRENT_NOW"; "POWER_SUPPLY_POWER_NOW"])).

Definition aggregate (F : fs) (batts : list string) : Z * Z * Z :=
  fold_left (batt_step F) batts (0, 0, 0).

Definition updatePower (L : golib) (F : fs) : outcome :=
  match ReadFile F (powerSupply +:+ "/AC/online") with
  | None => Returned powerErr
  | Some plugged =>
      match ReadDir F powerSupply with
      | None => Returned powerErr
      | Some batts =>
          let '(enFull, enNow, curNow) := aggregate F batts in
          if enFull =? 0 then Returned powerErr
          else
            let enPerc := percent enNow enFull in
            match plugged with
            | EmptyString => Panicked IndexOutOfRange
            | String first _ =>
                if Ascii.eqb first "1"
                then Returned (power_line pluggedSign enPerc "")
                else if negb (curNow =? 0)
                then Returned (power_line unpluggedSign enPerc (time_left L enNow curNow))
                else Returned (power_line unpluggedSign enPerc "")
            end
      end
  end.

End Uevent.

(** ** The second version: rates for the network, one file per battery field *)

Module Discrete.

Definition bpsSign : string := "B/s".
Definition kibpsSign : string := "KiB/s".
Definition mibpsSign : string := "MiB/s".
Definition netReceivedSign : string := "RX".
Definition netTransmittedSign : string := "TX".
Definition powerSupply : string := "/sys/class/power_supply/".

(** The end of [fixed]: the choice of a precision by magnitude. *)
Definition formated (spd : spec_float) : string :=
  if f32_geb spd (float32_of_int 100) then fmt_f 3 0 spd
  else if f32_geb spd (float32_of_int 10) then fmt_f 4 1 spd
  else " " +:+ fmt_f 3 1 spd.

Definition fixed (pre : string) (rate : Z) : string :=
  if rate <? 0 then pre +:+ " " +:+ c03 +:+ "ERR" +:+ c01
  else
    let spd := float32_of_int rate in
    if f32_geb spd (float32_of_int (1000 * 1024 * 1024))
    then c04 +:+ pre +:+ c03 +:+ "ERR" +:+ c01
    else if f32_geb spd (float32_of_int (1000 * 1024))
    then
      let spd := f32_div spd (float32_of_int (1024 * 1024)) in
      (c04 +:+ pre +:+ c01) +:+ Replace1 (formated spd) "." floatSeparator +:+ mibpsSign
    else if f32_geb spd (float32_of_int 1000)
    then
      let spd := f32_div spd (float32_of_int 1024) in
      pre +:+ Replace1 (formated spd) "." floatSeparator +:+ kibpsSign
    else pre +:+ Replace1 (formated spd) "." floatSeparator +:+ bpsSign.

Definition updateNetUse (L : golib) (F : fs) (st : net_state) : string * net_state :=
  match OpenLines F "/proc/net/dev" with
  | None =>
      (netReceivedSign +:+ " " +:+ c03 +:+ "ERR" +:+ c01 +:+ " "
         +:+ netTransmittedSign +:+ " " +:+ c03 +:+ "ERR" +:+ c01, st)
  | Some lines =>
      let '(rxNow, txNow) := net_totals L lines in
      (fixed netReceivedSign (int_sub rxNow (rxOld st)) +:+ " "
         +:+ fixed netTransmittedSign (int_sub txNow (txOld st)),
       {| rxOld := rxNow; txOld := txNow |})
  end.

(** The loop of [readval]: the first file that can be read, the byte
    ['0'] when there is none. *)
Fixpoint first_readable (F : fs) (path : string) (field : list string) : string :=
  match field with
  | [] => "0"
  | f :: rest =>
      match ReadFile F (path +:+ f) with
      | Some tmp => tmp
      | None => first_readable F path rest
      end
  end.

Definition readval (L : golib) (F : fs) (name : string) (field : list string) : Z :=
  let path := powerSupply +:+ name +:+ "/" in
  let file := first_readable F path field in
  match Atoi (TrimSpace L file) with
  | Some ret => ret
  | None => 0
  end.

Definition batt_step (L : golib) (F : fs) (acc : Z * Z * Z) (name : string) : Z * Z * Z :=
  let '(enFull, enNow, curNow) := acc in
  if negb (HasPrefix name "BAT") then acc
  else
    (int_add enFull (readval L F name ["energy_full"; "charge_full"]),
     int_add enNow (readval L F name ["energy_now"; "charge_now"]),
     int_add curNow (readval L F name ["current_now"])).

Definition aggregate (L : golib) (F : fs) (batts : list string) : Z * Z * Z :=
  fold_left (batt_step L F) batts (0, 0, 0).

Definition updatePower (L : golib) (F : fs) : outcome :=
  match ReadFile F (powerSupply +:+ "AC/online") with
  | None => Returned powerErr
  | Some plugged =>
      match ReadDir F powerSupply with
      | None => Returned powerErr
      | Some batts =>
          let '(enFull, enNow, curNow) := aggregate L F batts in
          if enFull =? 0 then Returned powerErr
          else
            let enPerc := percent enNow enFull in
            if String.eqb plugged (String "1" (String "010" ""))
            then Returned (power_line pluggedSign enPerc "")
            else if negb (curNow =? 0)
            then Returned (power_line unpluggedSign enPerc (time_left L enNow curNow))
            else Returned (power_line unpluggedSign enPerc "")
      end
  end.

End Discrete.

(** ** Reference inputs

    A scanner for lines made of fields separated by blanks, each number
    a plain decimal in range: on such lines it is what [fmt.Sscanf] does
    with the formats of the program.  It stands for the library in the
    worked examples. *)

Definition is_blank (c : ascii) : bool :=
  Ascii.eqb c " " || Ascii.eqb c "009".

Fixpoint fields_of (s : string) (cur : string) : list string :=
  match s with
  | EmptyString => if String.eqb cur "" then [] else [cur]
  | String c r =>
      if is_blank c
      then (if String.eqb cur "" then fields_of r "" else cur :: fields_of r "")
      else fields_of r (cur +:+ String c "")
  end.

Definition ref_Sscanf_net (text : string) (vars : string * Z * Z) : string * Z * Z :=
  let '(dev, rx, tx) := vars in
  match fields_of text "" with
  | [] => vars
  | d :: nums =>
      match nums with
      | [] => (d, rx, tx)
      | r :: _ =>
          match Atoi r with
          | None => (d, rx, tx)
          | Some rxv =>
              match mapM Atoi (take 8 (drop 1 nums)) with
              | Some [_; _; _; _; _; _; _; txv] => (d, rxv, txv)
              | _ => (d, rxv, tx)
              end
          end
      end
  end.

Definition ref_Sscanf_mem (text : string) : option (string * Z) :=
  match fields_of text "" with
  | p :: v :: _ => match Atoi v with Some n => Some (p, n) | None => None end
  | _ => None
  end.

(** Trimming of the blanks, tabs, line feeds and carriage returns at both
    ends: [strings.TrimSpace] on text that holds no other white space. *)
Definition is_space (c : ascii) : bool :=
  is_blank c || Ascii.eqb c "010" || Ascii.eqb c "013" || Ascii.eqb c "011" || Ascii.eqb c "012".

Fixpoint trim_left (s : string) : string :=
  match s with
  | String c r => if is_space c then trim_left r else s
  | EmptyString => EmptyString
  end.

Fixpoint trim_right (s : string) : string :=
  match s with
  | EmptyString => EmptyString
  | String c r =>
      match trim_right r with
      | EmptyString => if is_space c then EmptyString else String c EmptyString
      | r' => String c r'
      end
  end.

Definition ref_TrimSpace (s : string) : string := trim_right (trim_left s).

(** The library of the examples; the conversion of an out-of-range float
    gives the most negative integer, as on amd64. *)
Definition ref_lib : golib := {|
  Sscanf_net := ref_Sscanf_net;
  Sscanf_mem := ref_Sscanf_mem;
  TrimSpace := ref_TrimSpace;
  float_to_int_oor := fun _ => int_min
|}.

(** The lines a scanner reads from a file that holds no carriage return
    and no line longer than the scanner's buffer. *)
Definition lines_of (content : string) : list string :=
  match reverse (Split content "010") with
  | last :: others => reverse (if String.eqb last "" then others else last :: others)
  | [] => []
  end.

(** A file system given by the list of its files and the list of its
    directories. *)
Definition lookup_path {A : Type} (table : list (string * A)) (path : string) : option A :=
  snd <$> find (fun entry => String.eqb (fst entry) path) table.

Definition mkfs (files : list (string * string)) (dirs : list (string * list string)) : fs := {|
  ReadFile := lookup_path files;
  ReadDir := lookup_path dirs;
  OpenLines := fun path => lines_of <$> lookup_path files path
|}.

(** ** Notions used to state the properties *)

Fixpoint count_char (c : ascii) (s : string) : nat :=
  match s with
  | EmptyString => O
  | String a r => ((if Ascii.eqb a c then 1 else 0) + count_char c r)%nat
  end.

Fixpoint before_char (c : ascii) (s : string) : string :=
  match s with
  | EmptyString => EmptyString
  | String a r => if Ascii.eqb a c then EmptyString else String a (before_char c r)
  end.

Fixpoint after_char (c : ascii) (s : string) : string :=
  match s with
  | EmptyString => EmptyString
  | String a r => if Ascii.eqb a c then r else after_char c r
  end.

(** The entry a line stands for: it has exactly one [=], the key is the
    text before it and the value the text after it. *)
Definition entry_of_line (text : string) : option (string * string) :=
  if Nat.eqb (count_char "=" text) 1
  then Some (before_char "=" text, after_char "=" text)
  else None.

(** The value a line gives to the key [k], if any. *)
Definition value_for (k : string) (text : string) : option string :=
  match entry_of_line text with
  | Some (k', v) => if String.eqb k' k then Some v else None
  | None => None
  end.

(** The specification's wording of the parser, to be compared with
    [parse_line]: the line is split on its FIRST [=], and skipped when
    that does not give two parts. *)
Definition spec_split_first (text : string) : list string :=
  if Nat.eqb (count_char "=" text) 0 then [text]
  else [before_char "=" text; after_char "=" text].

Definition spec_parse_line (h : gmap string string) (text : string)
  : gmap string string :=
  match spec_split_first text with
  | [k; v] => <[k := v]> h
  | _ => h
  end.

(** The files of the worked examples.  [nl] ends a line. *)
Definition nl : string := String "010" "".

Definition uevent_file : fs :=
  mkfs [("uevent", "a=1" +:+ nl +:+ "b" +:+ nl +:+ "a=b=c" +:+ nl +:+ "a=2" +:+ nl +:+ "n=x" +:+ nl)] [].

Definition abc_file : fs := mkfs [("uevent", "a=b=c" +:+ nl)] [].

(** A battery whose [uevent] names its charge, not its energy. *)
Definition charge_battery : fs :=
  mkfs [("/sys/class/power_supply/AC/online", "0" +:+ nl);
        ("/sys/class/power_supply/BAT0/uevent",
         "POWER_SUPPLY_CHARGE_FULL=2000" +:+ nl +:+
         "POWER_SUPPLY_CHARGE_NOW=1000" +:+ nl +:+
         "POWER_SUPPLY_CURRENT_NOW=500" +:+ nl)]
       [("/sys/class/power_supply", ["AC"; "BAT0"])].

(** The file of the mains adapter: the same path in both versions. *)
Definition online_path : string := "/sys/class/power_supply/AC/online".

(** The table of the network interfaces: one counted interface that has
    received 500 bytes and sent 600. *)
Definition net_file : fs :=
  mkfs [("/proc/net/dev",
         "Inter-|   Receive" +:+ nl +:+
         "    lo: 70 1 0 0 0 0 0 0 70 1" +:+ nl +:+
         "wlp4s0: 500 5 0 0 0 0 0 0 600 6" +:+ nl)] [].

Definition no_file : fs := mkfs [] [].

(** A memory table without its [MemTotal:] line, and a battery next to an
    empty [AC/online]. *)
Definition no_total_file : fs :=
  mkfs [("/proc/meminfo", "MemFree: 400 kB" +:+ nl +:+ "Buffers: 100 kB" +:+ nl);
        ("/sys/class/power_supply/AC/online", "");
        ("/sys/class/power_supply/BAT0/uevent", "POWER_SUPPLY_ENERGY_FULL=2000" +:+ nl)]
       [("/sys/class/power_supply", ["AC"; "BAT0"])].

(** One battery read through its discrete files, [AC/online] holding
    [online]; [current] is the content of [current_now], if the file can
    be read. *)
Definition battery_files (online : string) (current : option string) : fs :=
  mkfs ([("/sys/class/power_supply/AC/online", online);
         ("/sys/class/power_supply/BAT0/energy_full", "2000" +:+ nl);
         ("/sys/class/power_supply/BAT0/energy_now", "1000" +:+ nl)]
        ++ match current with
           | Some c => [("/sys/class/power_supply/BAT0/current_now", c)]
           | None => []
           end)
       [("/sys/class/power_supply/", ["AC"; "BAT0"])].

(** ** The load, the host name and the status line (both versions) *)

Definition fieldSeparator : string := " | ".

(** [strings.Join]. *)
Fixpoint Join (elems : list string) (sep : string) : string :=
  match elems with
  | [] => ""
  | [e] => e
  | e :: rest => e +:+ sep +:+ Join rest sep
  end.

(** What [updateCPUUse] takes from outside the program:
    - [Sscanf_load text]: the call of [fmt.Sscanf] with ["%f"] on the
      content of the load file: the [float32] scanned, [None] for an
      error;
    - [cores]: [runtime.NumCPU()]. *)
Record loadlib : Type := {
  Sscanf_load : string -> option spec_float;
  cores : Z
}.

Definition updateCPUUse (C : loadlib) (L : golib) (F : fs) : string :=
  match ReadFile F "/proc/loadavg" with
  | None => cpuSign +:+ c03 +:+ "ERR" +:+ c01
  | Some loadavg =>
      match Sscanf_load C loadavg with
      | None => cpuSign +:+ c03 +:+ "ERR" +:+ c01
      | Some load =>
          colored cpuSign
            (int_of_float32 L
               (f32_div (f32_mul load (float32_of_int 100)) (float32_of_int (cores C))))
      end
  end.

Definition getHostname (L : golib) (F : fs) : string :=
  match ReadFile F "/etc/hostname" with
  | Some tmp => TrimSpace L tmp
  | None => ""
  end.

(** One turn of the loop of [main], up to the call of [xsetroot]: the
    line handed to it and the previous totals left for the next turn, or
    the panic that ends the process.  [net] and [power] are the
    [updateNetUse] and [updatePower] of the version; [now] is the local
    time as [Format] prints it.  The elements of [status] are evaluated
    from left to right. *)
Definition status
    (net : golib -> fs -> net_state -> string * net_state)
    (power : golib -> fs -> outcome)
    (C : loadlib) (L : golib) (F : fs) (st : net_state) (now : string)
  : panic + (string * net_state) :=
  let hostname := getHostname L F in
  let '(netuse, st') := net L F st in
  let cpu := updateCPUUse C L F in
  match updateMemUse L F with
  | Panicked p => inl p
  | Returned mem =>
      match power L F with
      | Panicked p => inl p
      | Returned pow =>
          inr (Join [hostname; netuse; cpu; mem; pow; now] fieldSeparator, st')
      end
  end.

(** ** Further notions used to state properties *)

Definition Zsum (l : list Z) : Z := foldr Z.add 0 l.

Definition is_battery (name : string) : bool := HasPrefix name "BAT".

(** An interface that is counted. *)
Definition counted (row : string * Z * Z) : bool := bool_decide (row.1.1 ∈ netDevs).

(** A whole number below 1000 printed by the end of [fixed]: as it is
    from 100 on, with one zero decimal below, and a blank below 10. *)
Definition show_units (k : Z) : string :=
  if 100 <=? k then itoa k
  else if 10 <=? k then itoa k +:+ ".0"
  else " " +:+ itoa k +:+ ".0".

(** [f] holds of the first [n] naturals. *)
Definition holds_below (f : Z -> bool) (n : nat) : bool :=
  forallb f (map Z.of_nat (seq 0 n)).

(** The four lines [updateMemUse] looks for. *)
Definition mem_fields : list string := ["MemTotal:"; "MemFree:"; "Buffers:"; "Cached:"].

(** A reference scanner for the load: a whole number of at most 24 bits. *)
Definition ref_Sscanf_load (text : string) : option spec_float :=
  match fields_of text "" with
  | f :: _ => float32_of_int <$> Atoi f
  | [] => None
  end.

Definition ref_load : loadlib := {| Sscanf_load := ref_Sscanf_load; cores := 4 |}.

(** Further files of the worked examples. *)
Definition net_file_later : fs :=
  mkfs [("/proc/net/dev",
         "Inter-|   Receive" +:+ nl +:+
         "    lo: 90 1 0 0 0 0 0 0 90 1" +:+ nl +:+
         "wlp4s0: 2548 5 0 0 0 0 0 0 700 6" +:+ nl +:+
         "enp0s25: 1000 5 0 0 0 0 0 0 0 6" +:+ nl)] [].

Definition meminfo_file : fs :=
  mkfs [("/proc/meminfo",
         "MemTotal: 1000 kB" +:+ nl +:+ "MemFree: 400 kB" +:+ nl +:+
         "MemAvailable: 600 kB" +:+ nl +:+ "Buffers: 100 kB" +:+ nl +:+
         "Cached: 100 kB" +:+ nl +:+ "SwapCached:" +:+ nl)] [].

Definition broken_meminfo_file : fs :=
  mkfs [("/proc/meminfo",
         "MemTotal: 1000 kB" +:+ nl +:+ "MemFree:" +:+ nl +:+ "Buffers: 100 kB" +:+ nl)] [].

(** Two batteries behind a directory that lists other supplies too; the
    second one names its charge. *)
Definition two_batteries : fs :=
  mkfs [("/sys/class/power_supply/AC/online", "0" +:+ nl);
        ("/sys/class/power_supply/BAT0/energy_full", "2000" +:+ nl);
        ("/sys/class/power_supply/BAT0/energy_now", "1000" +:+ nl);
        ("/sys/class/power_supply/BAT1/charge_full", "3000" +:+ nl);
        ("/sys/class/power_supply/BAT1/energy_now", "  500" +:+ nl);
        ("/sys/class/power_supply/BAT1/charge_now", "700" +:+ nl);
        ("/sys/class/power_supply/BAT0/uevent",
         "POWER_SUPPLY_ENERGY_FULL=2000" +:+ nl +:+ "POWER_SUPPLY_ENERGY_NOW=1000" +:+ nl);
        ("/sys/class/power_supply/BAT1/uevent",
         "POWER_SUPPLY_CHARGE_FULL=3000" +:+ nl +:+ "POWER_SUPPLY_ENERGY_NOW=500" +:+ nl)]
       [("/sys/class/power_supply/", ["AC"; "BAT0"; "BAT1"; "ucsi-source-psy"]);
        ("/sys/class/power_supply", ["AC"; "BAT0"; "BAT1"; "ucsi-source-psy"])].

(** A machine without battery: the directory lists the adapter only. *)
Definition no_battery : fs :=
  mkfs [("/sys/class/power_supply/AC/online", "1" +:+ nl)]
       [("/sys/class/power_supply/", ["AC"]); ("/sys/class/power_supply", ["AC"])].

Example Atoi_ex : (Atoi "1000", Atoi "-12", Atoi "+7", Atoi "", Atoi "-", Atoi "1_0",
                   Atoi "9223372036854775807", Atoi "9223372036854775808",
                   Atoi "-9223372036854775808")
  = (Some 1000, Some (-12), Some 7, None, None, None,
     Some 9223372036854775807, None, Some (-9223372036854775808)).
Proof. vm_compute. reflexivity. Qed.

Example fmt_ex : (fmt_3d 5, fmt_3d 100, fmt_3d (-7), fmt_3d 1234, fmt_02d 5, fmt_02d (-5), fmt_02d 12, fmt_02d 0, fmt_d 0)
  = ("  5", "100", " -7", "1234", "05", "-5", "12", "00", "0").
Proof. vm_compute. reflexivity. Qed.

Example Split_ex : (Split "a=b=c" "=", Split "a=b" "=", Split "ab" "=", Split "" "=", Split "=" "=")
  = (["a";"b";"c"], ["a";"b"], ["ab"], [""], ["";""]).
Proof. vm_compute. reflexivity. Qed.

(** ** The key=value table *)

Section SplitFacts.

Variable sep : ascii.

Lemma Split_length (s : string) :
  length (Split s sep) = S (count_char sep s).
Proof.
  induction s as [|a r IH]; simpl; [reflexivity|].
  destruct (Ascii.eqb a sep); simpl.
  - now rewrite IH.
  - destruct (Split r sep) as [|piece pieces]; simpl in *; [discriminate|exact IH].
Qed.

Lemma Split_no_sep (s : string) :
  count_char sep s = O -> Split s sep = [s].
Proof.
  induction s as [|a r IH]; simpl; [reflexivity|].
  destruct (Ascii.eqb a sep); simpl; [discriminate|].
  intros H. now rewrite (IH H).
Qed.

Lemma Split_one_sep (s : string) :
  count_char sep s = 1%nat -> Split s sep = [before_char sep s; after_char sep s].
Proof.
  induction s as [|a r IH]; simpl; [discriminate|].
  destruct (Ascii.eqb a sep); simpl.
  - intros H. injection H as H. now rewrite (Split_no_sep r H).
  - intros H. now rewrite (IH H).
Qed.

Lemma before_char_append (k v : string) :
  count_char sep k = O -> before_char sep (k +:+ String sep v) = k.
Proof.
  induction k as [|a r IH]; simpl.
  - now rewrite Ascii.eqb_refl.
  - destruct (Ascii.eqb a sep); [discriminate|]. intros H. now rewrite (IH H).
Qed.

Lemma after_char_append (k v : string) :
  count_char sep k = O -> after_char sep (k +:+ String sep v) = v.
Proof.
  induction k as [|a r IH]; simpl.
  - now rewrite Ascii.eqb_refl.
  - destruct (Ascii.eqb a sep); [discriminate|]. intros H. now rewrite (IH H).
Qed.

Lemma count_char_append (k v : string) :
  count_char sep (k +:+ v) = (count_char sep k + count_char sep v)%nat.
Proof.
  induction k as [|a r IH]; simpl; [reflexivity|]. rewrite IH. lia.
Qed.

End SplitFacts.

Lemma parse_line_entry (h : gmap string string) (text : string) :
  parse_line h text =
  match entry_of_line text with
  | Some (k, v) => <[k := v]> h
  | None => h
  end.
Proof.
  unfold parse_line, entry_of_line.
  destruct (Nat.eqb_spec (count_char "=" text) 1) as [E|E].
  - now rewrite (Split_one_sep _ _ E).
  - pose proof (Split_length "=" text) as HL.
    destruct (Split text "=") as [|a [|b [|c l]]]; try reflexivity.
    simpl in HL. congruence.
Qed.

Lemma entry_of_line_join (k v : string) :
  count_char "=" k = O -> count_char "=" v = O ->
  entry_of_line (k +:+ "=" +:+ v) = Some (k, v).
Proof.
  intros Hk Hv. unfold entry_of_line.
  change (k +:+ "=" +:+ v) with (k +:+ String "=" v).
  rewrite count_char_append. simpl. rewrite Hk, Hv. simpl.
  now rewrite before_char_append, after_char_append.
Qed.

Lemma fold_parse_line (lines : list string) (h : gmap string string) :
  fold_left parse_line lines h
  = list_to_map (reverse (omap entry_of_line lines)) ∪ h.
Proof.
  revert h. induction lines as [|text lines IH]; intros h; simpl.
  - now rewrite (left_id_L ∅ (∪)).
  - rewrite IH, parse_line_entry.
    destruct (entry_of_line text) as [[k v]|]; [|reflexivity].
    rewrite reverse_cons, list_to_map_app. simpl.
    rewrite <- (assoc_L (∪)). f_equal.
    now rewrite insert_empty, <- insert_union_singleton_l.
Qed.

Lemma SearchForInt_none (h : Hash) (fields : list string) :
  (forall g, g ∈ fields -> values h !! g = None) -> SearchForInt h fields = 0.
Proof.
  induction fields as [|f rest IH]; intros Habs; simpl; [reflexivity|].
  rewrite (Habs f) by apply list_elem_of_here.
  apply IH. intros g Hg. apply Habs. now apply list_elem_of_further.
Qed.

Lemma SearchForInt_first (h : Hash) (pre post : list string) (f v : string) :
  (forall g, g ∈ pre -> values h !! g = None) ->
  values h !! f = Some v ->
  SearchForInt h (pre ++ f :: post) = default 0 (Atoi v).
Proof.
  induction pre as [|g pre IH]; intros Habs Hf; simpl.
  - rewrite Hf. unfold GetInt. rewrite Hf. simpl. now destruct (Atoi v).
  - rewrite (Habs g) by apply list_elem_of_here.
    apply IH; [|exact Hf]. intros g' Hg'. apply Habs. now apply list_elem_of_further.
Qed.

Lemma list_to_map_reverse_last (k : string) (lines : list string) :
  (list_to_map (reverse (omap entry_of_line lines)) : gmap string string) !! k
  = last (omap (value_for k) lines).
Proof.
  induction lines as [|text lines IH] using rev_ind; [reflexivity|].
  rewrite !omap_app. simpl. unfold value_for at 2.
  destruct (entry_of_line text) as [[k' v]|]; simpl.
  - rewrite reverse_app. simpl.
    destruct (String.eqb_spec k' k) as [->|Hne].
    + now rewrite lookup_insert_eq, last_snoc.
    + rewrite lookup_insert_ne by exact Hne. now rewrite IH, app_nil_r.
  - now rewrite !app_nil_r.
Qed.

Lemma parseFile_lookup (F : fs) (path : string) (lines : list string) (k : string) :
  OpenLines F path = Some lines ->
  values (parseFile F path) !! k = last (omap (value_for k) lines).
Proof.
  intros Hopen. unfold parseFile. rewrite Hopen. simpl.
  rewrite fold_parse_line, (right_id_L ∅ (∪)).
  apply list_to_map_reverse_last.
Qed.

(** C6, as amended.  A line is split on every [=], not on the first one.
    The value the store holds for a key is the value of the last line
    that has exactly one [=] and that key before it; a line with no [=]
    or with more than one gives no entry and leaves the store as it is; a
    line [k=v], with no [=] in [k] and [v], sets [k] to [v] over whatever
    was there. *)
Theorem parseFile_rules (F : fs) (path : string) (lines : list string) :
  OpenLines F path = Some lines ->
  (forall k, values (parseFile F path) !! k = last (omap (value_for k) lines))
  /\ (forall h text, count_char "=" text <> 1%nat -> parse_line h text = h)
  /\ (forall h text, count_char "=" text = 1%nat ->
        parse_line h text = <[before_char "=" text := after_char "=" text]> h)
  /\ (forall h k v, count_char "=" k = O -> count_char "=" v = O ->
        parse_line h (k +:+ "=" +:+ v) = <[k := v]> h).
Proof.
  intros Hopen. split; [|split; [|split]].
  - intros k. now apply parseFile_lookup.
  - intros h text Hc. rewrite parse_line_entry. unfold entry_of_line.
    now destruct (Nat.eqb_spec (count_char "=" text) 1).
  - intros h text Hc. rewrite parse_line_entry. unfold entry_of_line.
    now rewrite Hc.
  - intros h k v Hk Hv. now rewrite parse_line_entry, entry_of_line_join.
Qed.

Lemma parseFile_rules_witness :
  OpenLines uevent_file "uevent" = Some ["a=1"; "b"; "a=b=c"; "a=2"; "n=x"]
  /\ values (parseFile uevent_file "uevent") !! "a" = Some "2"
  /\ values (parseFile uevent_file "uevent") !! "b" = None.
Proof.
  assert (H : OpenLines uevent_file "uevent" = Some ["a=1"; "b"; "a=b=c"; "a=2"; "n=x"])
    by reflexivity.
  split; [exact H|].
  split; rewrite (proj1 (parseFile_rules uevent_file "uevent" _ H)); reflexivity.
Defined.

(** C6, as stated, fails on the line [a=b=c]: split on its first [=] it
    has two parts and would give the entry [a := b=c]; the program splits
    it in three and stores nothing. *)
Lemma parse_first_separator_counterexample :
  OpenLines abc_file "uevent" = Some ["a=b=c"]
  /\ fold_left spec_parse_line ["a=b=c"] ∅ !! "a" = Some "b=c"
  /\ values (parseFile abc_file "uevent") !! "a" = None.
Proof. repeat split; vm_compute; reflexivity. Qed.

(** C5.  On the store parsed from a file, [SearchForInt] returns the
    integer value of the first candidate key the store holds, 0 when that
    value is not an integer, and 0 when the store holds no candidate.
    For a file that opens, the value of a key is the one of its last
    line [key=value]. *)
Theorem SearchForInt_first_present (F : fs) (path : string) (fields : list string) :
  let h := parseFile F path in
  (forall pre f post v,
      fields = (pre ++ f :: post)%list ->
      (forall g, g ∈ pre -> values h !! g = None) ->
      values h !! f = Some v ->
      SearchForInt h fields = match Atoi v with Some n => n | None => 0 end)
  /\ ((forall g, g ∈ fields -> values h !! g = None) -> SearchForInt h fields = 0)
  /\ (forall lines k,
        OpenLines F path = Some lines ->
        SearchForInt h [k]
        = match last (omap (value_for k) lines) with
          | Some v => match Atoi v with Some n => n | None => 0 end
          | None => 0
          end).
Proof.
  intros h. split; [|split].
  - intros pre f post v -> Habs Hf.
    rewrite (SearchForInt_first h pre post f v Habs Hf). now destruct (Atoi v).
  - apply SearchForInt_none.
  - intros lines k Hopen. simpl. unfold GetInt, h.
    rewrite (parseFile_lookup F path lines k Hopen).
    destruct (last (omap (value_for k) lines)) as [v|]; reflexivity.
Qed.

Lemma SearchForInt_first_present_witness :
  SearchForInt (parseFile uevent_file "uevent") ["z"; "a"; "n"] = 2
  /\ SearchForInt (parseFile uevent_file "uevent") ["z"; "n"; "a"] = 0
  /\ SearchForInt (parseFile uevent_file "uevent") ["z"; "b"] = 0.
Proof.
  pose proof (SearchForInt_first_present uevent_file "uevent") as T.
  split; [|split].
  - apply (proj1 (T ["z"; "a"; "n"]) ["z"] "a" ["n"] "2"); [reflexivity| |reflexivity].
    intros g Hg. apply list_elem_of_singleton in Hg. now subst g.
  - apply (proj1 (T ["z"; "n"; "a"]) ["z"] "n" ["a"] "x"); [reflexivity| |reflexivity].
    intros g Hg. apply list_elem_of_singleton in Hg. now subst g.
  - apply (proj1 (proj2 (T ["z"; "b"]))).
    intros g Hg. apply elem_of_cons in Hg as [->|Hg]; [reflexivity|].
    apply list_elem_of_singleton in Hg. now subst g.
Defined.

(** C9: the code misses the claim.  The second candidate for the energy
    now is spelled [POWR_SUPPLY_CHARGE_NOW], so a battery that names
    [POWER_SUPPLY_CHARGE_NOW] gives 0: here 1000 of 2000 is shown
    as 0 percent. *)
Theorem charge_now_not_read :
  values (parseFile charge_battery "/sys/class/power_supply/BAT0/uevent")
    !! "POWER_SUPPLY_CHARGE_NOW" = Some "1000"
  /\ Uevent.aggregate charge_battery ["AC"; "BAT0"] = (2000, 0, 500)
  /\ Uevent.updatePower ref_lib charge_battery
     = Returned (c06 +:+ "BAT " +:+ c01 +:+ "  0 [0:00]").
Proof. repeat split; vm_compute; reflexivity. Qed.

(** ** Integers *)

Lemma wrap_range (z : Z) : int_min <= wrap z <= int_max.
Proof.
  unfold wrap, int_min, int_max.
  pose proof (Z.mod_pos_bound (z + 2 ^ 63) (2 ^ 64) ltac:(lia)). lia.
Qed.

Lemma wrap_id (z : Z) : int_min <= z <= int_max -> wrap z = z.
Proof.
  unfold wrap, int_min, int_max. intros H.
  rewrite Z.mod_small by lia. lia.
Qed.

Lemma in_int_true (z : Z) : in_int z = true <-> int_min <= z <= int_max.
Proof. unfold in_int. rewrite andb_true_iff, !Z.leb_le. tauto. Qed.

Lemma int_of_float32_range (L : golib) (x : spec_float) :
  int_min <= int_of_float32 L x <= int_max.
Proof.
  unfold int_of_float32.
  destruct (trunc_float x) as [z|]; [|apply wrap_range].
  destruct (in_int z) eqn:E; [now apply in_int_true|apply wrap_range].
Qed.

Lemma quot_in_int (a b : Z) :
  int_min < a <= int_max -> b <> 0 -> wrap (Z.quot a b) = Z.quot a b.
Proof.
  intros Ha Hb. apply wrap_id.
  pose proof (Z.quot_rem' a b) as E.
  pose proof (Z.rem_bound_abs a b Hb) as Hr.
  pose proof (Z.rem_sign_nz a b Hb) as Hs.
  unfold int_min, int_max in *.
  assert (Habs : Z.abs (Z.quot a b) <= Z.abs a).
  { rewrite <- Z.quot_abs by exact Hb.
    apply Z.quot_le_upper_bound; [lia|]. nia. }
  lia.
Qed.

(** ** The network sampler *)

Lemma updateNetUse_closed (L : golib) (F : fs) (st : net_state) :
  OpenLines F "/proc/net/dev" = None ->
  Uevent.updateNetUse L F st = ("NET " +:+ c03 +:+ "ERR" +:+ c01, st)
  /\ Discrete.updateNetUse L F st
     = ("RX " +:+ c03 +:+ "ERR" +:+ c01 +:+ " TX " +:+ c03 +:+ "ERR" +:+ c01, st).
Proof.
  intros H. unfold Uevent.updateNetUse, Discrete.updateNetUse. rewrite H.
  split; reflexivity.
Qed.

Lemma updateNetUse_open (L : golib) (F : fs) (st : net_state) (lines : list string) :
  OpenLines F "/proc/net/dev" = Some lines ->
  Uevent.updateNetUse L F st
  = (Uevent.netSign +:+ " "
       +:+ (if int_sub (net_totals L lines).1 (rxOld st) =? 0 then " " else Uevent.arrow_down)
       +:+ (if int_sub (net_totals L lines).2 (txOld st) =? 0 then " " else Uevent.arrow_up),
     {| rxOld := (net_totals L lines).1; txOld := (net_totals L lines).2 |})
  /\ Discrete.updateNetUse L F st
     = (Discrete.fixed "RX" (int_sub (net_totals L lines).1 (rxOld st)) +:+ " "
          +:+ Discrete.fixed "TX" (int_sub (net_totals L lines).2 (txOld st)),
        {| rxOld := (net_totals L lines).1; txOld := (net_totals L lines).2 |}).
Proof.
  intros H. unfold Uevent.updateNetUse, Discrete.updateNetUse. rewrite H.
  destruct (net_totals L lines) as [rxNow txNow]. split; reflexivity.
Qed.

(** C4.  When the table of the interfaces cannot be opened, both versions
    return a fixed error string (the rate version one marker for each
    direction) and leave [rxOld] and [txOld] as they are; when it opens,
    they become the totals just read. *)
Theorem updateNetUse_state (L : golib) (F : fs) (st : net_state) :
  (OpenLines F "/proc/net/dev" = None ->
     Uevent.updateNetUse L F st = ("NET " +:+ c03 +:+ "ERR" +:+ c01, st)
     /\ Discrete.updateNetUse L F st
        = ("RX " +:+ c03 +:+ "ERR" +:+ c01 +:+ " TX " +:+ c03 +:+ "ERR" +:+ c01, st))
  /\ (forall lines, OpenLines F "/proc/net/dev" = Some lines ->
        (Uevent.updateNetUse L F st).2
        = {| rxOld := (net_totals L lines).1; txOld := (net_totals L lines).2 |}
        /\ (Discrete.updateNetUse L F st).2
           = {| rxOld := (net_totals L lines).1; txOld := (net_totals L lines).2 |}).
Proof.
  split.
  - apply updateNetUse_closed.
  - intros lines H. destruct (updateNetUse_open L F st lines H) as [-> ->].
    split; reflexivity.
Qed.

Lemma updateNetUse_state_witness :
  (Uevent.updateNetUse ref_lib no_file {| rxOld := 7; txOld := 9 |}).2
  = {| rxOld := 7; txOld := 9 |}
  /\ (Discrete.updateNetUse ref_lib no_file {| rxOld := 7; txOld := 9 |}).2
     = {| rxOld := 7; txOld := 9 |}
  /\ (Discrete.updateNetUse ref_lib net_file {| rxOld := 7; txOld := 9 |}).2
     = {| rxOld := 500; txOld := 600 |}.
Proof.
  pose proof (updateNetUse_state ref_lib no_file {| rxOld := 7; txOld := 9 |}) as [T _].
  pose proof (updateNetUse_state ref_lib net_file {| rxOld := 7; txOld := 9 |}) as [_ T'].
  destruct (T eq_refl) as [-> ->].
  destruct (T' _ eq_refl) as [_ ->].
  repeat split.
Defined.

Lemma fixed_negative (pre : string) (rate : Z) :
  rate < 0 -> Discrete.fixed pre rate = pre +:+ " " +:+ c03 +:+ "ERR" +:+ c01.
Proof.
  intros H. unfold Discrete.fixed.
  now destruct (Z.ltb_spec rate 0); [|lia].
Qed.

Lemma int_sub_decrease (now old : Z) :
  0 <= now < old -> old <= int_max -> int_sub now old = now - old /\ now - old < 0.
Proof.
  intros H1 H2. unfold int_sub. rewrite wrap_id; unfold int_min, int_max in *; lia.
Qed.

(** C3, as amended.  When a total read from the table is below the
    previous one (both being counts of bytes: not negative, and within
    [int]), the rate version shows the error marker for that direction,
    the label, a blank and ERR between colour escapes, not a rate of
    zero; the arrow version shows the arrow of that direction. *)
Theorem net_decrease_shows_error (L : golib) (F : fs) (st : net_state) (lines : list string) :
  OpenLines F "/proc/net/dev" = Some lines ->
  (0 <= (net_totals L lines).1 < rxOld st -> rxOld st <= int_max ->
     (Discrete.updateNetUse L F st).1
     = "RX " +:+ c03 +:+ "ERR" +:+ c01 +:+ " "
         +:+ Discrete.fixed "TX" (int_sub (net_totals L lines).2 (txOld st))
     /\ exists upload, (Uevent.updateNetUse L F st).1 = "NET " +:+ Uevent.arrow_down +:+ upload)
  /\ (0 <= (net_totals L lines).2 < txOld st -> txOld st <= int_max ->
        (Discrete.updateNetUse L F st).1
        = Discrete.fixed "RX" (int_sub (net_totals L lines).1 (rxOld st))
            +:+ " TX " +:+ c03 +:+ "ERR" +:+ c01
        /\ exists download,
            (Uevent.updateNetUse L F st).1 = "NET " +:+ download +:+ Uevent.arrow_up).
Proof.
  intros Hopen. destruct (updateNetUse_open L F st lines Hopen) as [-> ->].
  cbn [fst]. split.
  - intros Hlt Hmax. destruct (int_sub_decrease _ _ Hlt Hmax) as [E Hneg].
    split.
    + rewrite (fixed_negative "RX") by (rewrite E; exact Hneg). reflexivity.
    + rewrite E. destruct (Z.eqb_spec ((net_totals L lines).1 - rxOld st) 0); [lia|].
      eexists. reflexivity.
  - intros Hlt Hmax. destruct (int_sub_decrease _ _ Hlt Hmax) as [E Hneg].
    split.
    + rewrite (fixed_negative "TX") by (rewrite E; exact Hneg). reflexivity.
    + rewrite E. destruct (Z.eqb_spec ((net_totals L lines).2 - txOld st) 0); [lia|].
      exists (if int_sub (net_totals L lines).1 (rxOld st) =? 0 then " " else Uevent.arrow_down).
      unfold Uevent.netSign.
      destruct (int_sub (net_totals L lines).1 (rxOld st) =? 0); reflexivity.
Qed.

Lemma net_decrease_shows_error_witness :
  (Discrete.updateNetUse ref_lib net_file {| rxOld := 1000; txOld := 600 |}).1
  = "RX " +:+ c03 +:+ "ERR" +:+ c01 +:+ " TX 0.0B/s"
  /\ exists upload,
      (Uevent.updateNetUse ref_lib net_file {| rxOld := 1000; txOld := 600 |}).1
      = "NET " +:+ Uevent.arrow_down +:+ upload.
Proof.
  assert (E : net_totals ref_lib ["Inter-|   Receive"; "    lo: 70 1 0 0 0 0 0 0 70 1";
                                  "wlp4s0: 500 5 0 0 0 0 0 0 600 6"] = (500, 600))
    by reflexivity.
  destruct (proj1 (net_decrease_shows_error ref_lib net_file
                     {| rxOld := 1000; txOld := 600 |}
                     ["Inter-|   Receive"; "    lo: 70 1 0 0 0 0 0 0 70 1";
                      "wlp4s0: 500 5 0 0 0 0 0 0 600 6"] eq_refl)) as [Hrate Harrow].
  - rewrite E. simpl. lia.
  - simpl. unfold int_max. lia.
  - split; [|exact Harrow].
    rewrite Hrate, E. reflexivity.
Defined.

(** C3, as stated, fails: with 1000 bytes received before and 500 now,
    the receive side reads [RX ERR]; no traffic would read [RX 0.0B/s],
    as the transmit side does here. *)
Lemma net_decrease_counterexample :
  OpenLines net_file "/proc/net/dev"
  = Some ["Inter-|   Receive"; "    lo: 70 1 0 0 0 0 0 0 70 1";
          "wlp4s0: 500 5 0 0 0 0 0 0 600 6"]
  /\ net_totals ref_lib ["Inter-|   Receive"; "    lo: 70 1 0 0 0 0 0 0 70 1";
                         "wlp4s0: 500 5 0 0 0 0 0 0 600 6"] = (500, 600)
  /\ (Discrete.updateNetUse ref_lib net_file {| rxOld := 1000; txOld := 600 |}).1
     = "RX " +:+ c03 +:+ "ERR" +:+ c01 +:+ " TX 0.0B/s"
  /\ Discrete.fixed "RX" 0 = "RX 0.0B/s".
Proof. repeat split; vm_compute; reflexivity. Qed.

(** ** The memory sampler *)

Lemma mem_loop_no_total (L : golib) (lines : list string) :
  (forall text, text ∈ lines ->
     exists prop val, Sscanf_mem L text = Some (prop, val) /\ prop <> "MemTotal:") ->
  forall used done, exists used', mem_loop L lines 0 used done = Some (0, used').
Proof.
  induction lines as [|text rest IH]; intros Hscan used done.
  - exists used. simpl. now destruct (done =? 15).
  - simpl. destruct (done =? 15); [now exists used|].
    destruct (Hscan text (list_elem_of_here _ _)) as (prop & val & -> & Hne).
    assert (Hrest : forall t, t ∈ rest ->
              exists p v, Sscanf_mem L t = Some (p, v) /\ p <> "MemTotal:").
    { intros t Ht. apply Hscan. now apply list_elem_of_further. }
    destruct (String.eqb_spec prop "MemTotal:"); [contradiction|].
    destruct (String.eqb prop "MemFree:"); [apply IH, Hrest|].
    destruct (String.eqb prop "Buffers:"); [apply IH, Hrest|].
    destruct (String.eqb prop "Cached:"); apply IH, Hrest.
Qed.

(** ** The power sampler *)

Lemma Discrete_updatePower_eq (L : golib) (F : fs) (plugged : string)
    (batts : list string) (enFull enNow curNow : Z) :
  ReadFile F online_path = Some plugged ->
  ReadDir F "/sys/class/power_supply/" = Some batts ->
  Discrete.aggregate L F batts = (enFull, enNow, curNow) ->
  Discrete.updatePower L F =
  if enFull =? 0 then Returned powerErr
  else Returned
         (power_line
            (if String.eqb plugged ("1" +:+ nl) then pluggedSign else unpluggedSign)
            (percent enNow enFull)
            (if String.eqb plugged ("1" +:+ nl) then ""
             else if curNow =? 0 then "" else time_left L enNow curNow)).
Proof.
  intros Hac Hdir Hagg. unfold Discrete.updatePower.
  change (Discrete.powerSupply +:+ "AC/online") with online_path.
  change Discrete.powerSupply with "/sys/class/power_supply/".
  rewrite Hac, Hdir, Hagg.
  destruct (enFull =? 0); [reflexivity|].
  change (String "1" (String "010" "")) with ("1" +:+ nl).
  destruct (String.eqb plugged ("1" +:+ nl)); [reflexivity|].
  destruct (curNow =? 0); reflexivity.
Qed.

Lemma Uevent_updatePower_eq (L : golib) (F : fs) (plugged : string)
    (batts : list string) (enFull enNow curNow : Z) :
  ReadFile F online_path = Some plugged ->
  ReadDir F "/sys/class/power_supply" = Some batts ->
  Uevent.aggregate F batts = (enFull, enNow, curNow) ->
  Uevent.updatePower L F =
  if enFull =? 0 then Returned powerErr
  else match plugged with
       | EmptyString => Panicked IndexOutOfRange
       | String first _ =>
           Returned
             (power_line
                (if Ascii.eqb first "1" then pluggedSign else unpluggedSign)
                (percent enNow enFull)
                (if Ascii.eqb first "1" then ""
                 else if curNow =? 0 then "" else time_left L enNow curNow))
       end.
Proof.
  intros Hac Hdir Hagg. unfold Uevent.updatePower.
  change (Uevent.powerSupply +:+ "/AC/online") with online_path.
  change Uevent.powerSupply with "/sys/class/power_supply".
  rewrite Hac, Hdir, Hagg.
  destruct (enFull =? 0); [reflexivity|].
  destruct plugged as [|first rest]; [reflexivity|].
  destruct (Ascii.eqb first "1"); [reflexivity|].
  destruct (curNow =? 0); reflexivity.
Qed.


(** C7: the code misses the claim.  Two samplers end in a run-time
    panic on files that can be read.  [updateMemUse] divides by the
    total it has read, and the total is zero when the table opens, every
    line scans and none is the [MemTotal:] line (an empty table among
    them).  [updatePower] of the first version reads [plugged[0]], which
    does not exist when [AC/online] is empty. *)
Theorem samplers_panic (L : golib) (F : fs) :
  (forall lines,
      OpenLines F "/proc/meminfo" = Some lines ->
      (forall text, text ∈ lines ->
         exists prop val, Sscanf_mem L text = Some (prop, val) /\ prop <> "MemTotal:") ->
      updateMemUse L F = Panicked DivideByZero)
  /\ (forall batts enFull enNow curNow,
        ReadFile F online_path = Some "" ->
        ReadDir F "/sys/class/power_supply" = Some batts ->
        Uevent.aggregate F batts = (enFull, enNow, curNow) ->
        enFull <> 0 ->
        Uevent.updatePower L F = Panicked IndexOutOfRange).
Proof.
  split.
  - intros lines Hopen Hscan. unfold updateMemUse. rewrite Hopen.
    destruct (mem_loop_no_total L lines Hscan 0 0) as [used' ->].
    reflexivity.
  - intros batts enFull enNow curNow Hac Hdir Hagg Hfull.
    rewrite (Uevent_updatePower_eq L F "" batts enFull enNow curNow Hac Hdir Hagg).
    now destruct (Z.eqb_spec enFull 0).
Qed.

Lemma samplers_panic_witness :
  updateMemUse ref_lib no_total_file = Panicked DivideByZero
  /\ Uevent.updatePower ref_lib no_total_file = Panicked IndexOutOfRange.
Proof.
  destruct (samplers_panic ref_lib no_total_file) as [Tmem Tpow]. split.
  - apply (Tmem ["MemFree: 400 kB"; "Buffers: 100 kB"]); [reflexivity|].
    intros text Ht. apply elem_of_cons in Ht as [->|Ht].
    + exists "MemFree:", 400. split; [reflexivity|discriminate].
    + apply list_elem_of_singleton in Ht as ->.
      exists "Buffers:", 100. split; [reflexivity|discriminate].
  - apply (Tpow ["AC"; "BAT0"] 2000 0 0); [reflexivity|reflexivity|reflexivity|discriminate].
Defined.

Lemma power_line_icons_differ (p p' : Z) (s s' : string) :
  power_line pluggedSign p s <> power_line unpluggedSign p' s'.
Proof.
  unfold power_line.
  destruct (p <=? 5), (p <=? 10), (p' <=? 5), (p' <=? 10); simpl; discriminate.
Qed.

(** C8, as amended.  Once the sampler gets to show a percentage (the
    directory is listed and the full energy is not zero), the second
    version shows the plugged icon exactly when [AC/online] holds the two
    bytes ['1'] and line feed, and the first version exactly when the
    first byte of a non-empty [AC/online] is ['1']; otherwise both show
    the battery icon. *)
Theorem plugged_icon_rule (L : golib) (F : fs) (plugged : string)
    (enFull enNow curNow : Z) :
  ReadFile F online_path = Some plugged ->
  enFull <> 0 ->
  (forall batts,
      ReadDir F "/sys/class/power_supply/" = Some batts ->
      Discrete.aggregate L F batts = (enFull, enNow, curNow) ->
      exists suffix,
        Discrete.updatePower L F
        = Returned (power_line
                      (if String.eqb plugged ("1" +:+ nl) then pluggedSign else unpluggedSign)
                      (percent enNow enFull) suffix))
  /\ (forall batts first rest,
        plugged = String first rest ->
        ReadDir F "/sys/class/power_supply" = Some batts ->
        Uevent.aggregate F batts = (enFull, enNow, curNow) ->
        exists suffix,
          Uevent.updatePower L F
          = Returned (power_line
                        (if Ascii.eqb first "1" then pluggedSign else unpluggedSign)
                        (percent enNow enFull) suffix))
  /\ (forall p p' s s', power_line pluggedSign p s <> power_line unpluggedSign p' s').
Proof.
  intros Hac Hfull. split; [|split].
  - intros batts Hdir Hagg.
    rewrite (Discrete_updatePower_eq L F plugged batts _ _ _ Hac Hdir Hagg).
    destruct (Z.eqb_spec enFull 0); [contradiction|]. eexists. reflexivity.
  - intros batts first rest -> Hdir Hagg.
    rewrite (Uevent_updatePower_eq L F _ batts _ _ _ Hac Hdir Hagg).
    destruct (Z.eqb_spec enFull 0); [contradiction|]. eexists. reflexivity.
  - intros p p' s s'. apply power_line_icons_differ.
Qed.

Lemma plugged_icon_rule_witness :
  (exists suffix,
      Discrete.updatePower ref_lib (battery_files ("1" +:+ nl) (Some ("500" +:+ nl)))
      = Returned (power_line pluggedSign 50 suffix))
  /\ (exists suffix,
        Uevent.updatePower ref_lib charge_battery
        = Returned (power_line unpluggedSign 0 suffix)).
Proof.
  split.
  - apply (proj1 (plugged_icon_rule ref_lib
                    (battery_files ("1" +:+ nl) (Some ("500" +:+ nl)))
                    ("1" +:+ nl) 2000 1000 500 eq_refl ltac:(discriminate))
             ["AC"; "BAT0"]); reflexivity.
  - apply (proj1 (proj2 (plugged_icon_rule ref_lib charge_battery
                           ("0" +:+ nl) 2000 0 500 eq_refl ltac:(discriminate)))
             ["AC"; "BAT0"] "0"%char nl); reflexivity.
Defined.

(** C8, as stated, fails: when [AC/online] holds the single character
    ['1'] and nothing else, the second version shows the battery icon. *)
Lemma single_character_counterexample :
  ReadFile (battery_files "1" (Some ("0" +:+ nl))) online_path = Some "1"
  /\ Discrete.updatePower ref_lib (battery_files "1" (Some ("0" +:+ nl)))
     = Returned "BAT  50".
Proof. split; vm_compute; reflexivity. Qed.

Lemma time_left_rem (L : golib) (enNow curNow : Z) :
  time_left L enNow curNow
  = " [" +:+ fmt_d (Z.quot (time_in_min L enNow curNow) 60) +:+ ":"
      +:+ fmt_02d (Z.rem (time_in_min L enNow curNow) 60) +:+ "]".
Proof.
  unfold time_left. cbv zeta.
  set (t := time_in_min L enNow curNow).
  assert (Ht : int_min <= t <= int_max) by apply int_of_float32_range.
  assert (E : int_sub t (int_mul (Z.quot t 60) 60) = Z.rem t 60).
  { pose proof (Z.quot_rem' t 60) as Hq.
    pose proof (Z.rem_bound_abs t 60 ltac:(lia)) as Hr.
    pose proof (Z.rem_sign_nz t 60 ltac:(lia)) as Hs.
    unfold int_sub, int_mul, int_min, int_max in *.
    rewrite (wrap_id (Z.quot t 60 * 60)) by (unfold int_min, int_max; lia).
    rewrite wrap_id by (unfold int_min, int_max; lia). lia. }
  now rewrite E.
Qed.

Lemma percent_in_range (enNow enFull : Z) :
  enFull <> 0 -> int_min <= enNow * 100 <= int_max ->
  percent enNow enFull = Z.quot (enNow * 100) enFull.
Proof.
  intros Hfull Hrange. unfold percent, int_mul.
  rewrite (wrap_id (enNow * 100)) by exact Hrange.
  apply quot_in_int; [|exact Hfull].
  unfold int_min, int_max in *. lia.
Qed.

(** C2.  In the second version, with [AC/online] and the directory read:
    a full energy of zero gives the error marker; otherwise the line
    shows [enNow * 100 / enFull], the quotient truncated towards zero
    (taken in [int]: it is the exact quotient whenever [enNow * 100] fits
    in an [int]); and when [AC/online] is not ['1'] and line feed and the
    current is not zero, the line ends with [ [h:mm]], where [h] and [mm]
    are the hours and the remaining minutes of
    [int(float32(enNow) / float32(curNow) * 60)] minutes; in the other
    cases nothing follows the percentage. *)
Theorem power_percentage (L : golib) (F : fs) (plugged : string)
    (batts : list string) (enFull enNow curNow : Z) :
  ReadFile F online_path = Some plugged ->
  ReadDir F "/sys/class/power_supply/" = Some batts ->
  Discrete.aggregate L F batts = (enFull, enNow, curNow) ->
  (enFull = 0 -> Discrete.updatePower L F = Returned powerErr)
  /\ (enFull <> 0 ->
        Discrete.updatePower L F
        = Returned
            (power_line
               (if String.eqb plugged ("1" +:+ nl) then pluggedSign else unpluggedSign)
               (percent enNow enFull)
               (if String.eqb plugged ("1" +:+ nl) || (curNow =? 0) then ""
                else " [" +:+ fmt_d (Z.quot (time_in_min L enNow curNow) 60) +:+ ":"
                       +:+ fmt_02d (Z.rem (time_in_min L enNow curNow) 60) +:+ "]")))
  /\ (enFull <> 0 -> int_min <= enNow * 100 <= int_max ->
        percent enNow enFull = Z.quot (enNow * 100) enFull).
Proof.
  intros Hac Hdir Hagg.
  rewrite (Discrete_updatePower_eq L F plugged batts _ _ _ Hac Hdir Hagg).
  split; [|split].
  - intros ->. reflexivity.
  - intros Hfull. destruct (Z.eqb_spec enFull 0); [contradiction|].
    rewrite time_left_rem.
    destruct (String.eqb plugged ("1" +:+ nl)); [reflexivity|].
    destruct (curNow =? 0); reflexivity.
  - apply percent_in_range.
Qed.

Lemma power_percentage_witness :
  Discrete.updatePower ref_lib (battery_files ("0" +:+ nl) (Some ("0" +:+ nl)))
  = Returned "BAT  50"
  /\ Discrete.updatePower ref_lib (battery_files ("0" +:+ nl) (Some ("500" +:+ nl)))
     = Returned "BAT  50 [2:00]"
  /\ percent 1000 2000 = 50.
Proof.
  split; [|split].
  - exact (eq_trans
             (proj1 (proj2 (power_percentage ref_lib
                              (battery_files ("0" +:+ nl) (Some ("0" +:+ nl)))
                              ("0" +:+ nl) ["AC"; "BAT0"] 2000 1000 0
                              eq_refl eq_refl eq_refl)) ltac:(discriminate))
             eq_refl).
  - exact (eq_trans
             (proj1 (proj2 (power_percentage ref_lib
                              (battery_files ("0" +:+ nl) (Some ("500" +:+ nl)))
                              ("0" +:+ nl) ["AC"; "BAT0"] 2000 1000 500
                              eq_refl eq_refl eq_refl)) ltac:(discriminate))
             eq_refl).
  - exact (eq_trans
             (proj2 (proj2 (power_percentage ref_lib
                              (battery_files ("0" +:+ nl) (Some ("500" +:+ nl)))
                              ("0" +:+ nl) ["AC"; "BAT0"] 2000 1000 500
                              eq_refl eq_refl eq_refl)) ltac:(discriminate)
                ltac:(vm_compute; split; discriminate))
             eq_refl).
Defined.

Lemma string_append_assoc (a b c : string) :
  (a +:+ b) +:+ c = a +:+ (b +:+ c).
Proof.
  induction a as [|x a IH]; [reflexivity|].
  change (String x ((a +:+ b) +:+ c) = String x (a +:+ (b +:+ c))).
  now rewrite IH.
Qed.

Section Readval.

Variable L : golib.
Variable F : fs.

(** The default content of [readval], the byte ['0'], reads as 0 once
    trimmed: trimming leaves a digit alone. *)
Hypothesis TrimSpace_zero : TrimSpace L "0" = "0".

Lemma first_readable_none (path : string) (field : list string) :
  (forall f, f ∈ field -> ReadFile F (path +:+ f) = None) ->
  Discrete.first_readable F path field = "0".
Proof.
  induction field as [|f rest IH]; intros Hnone; simpl; [reflexivity|].
  rewrite (Hnone f) by apply list_elem_of_here.
  apply IH. intros g Hg. apply Hnone. now apply list_elem_of_further.
Qed.

Lemma first_readable_first (path : string) (pre post : list string) (f content : string) :
  (forall g, g ∈ pre -> ReadFile F (path +:+ g) = None) ->
  ReadFile F (path +:+ f) = Some content ->
  Discrete.first_readable F path (pre ++ f :: post) = content.
Proof.
  induction pre as [|g pre IH]; intros Hnone Hf; simpl.
  - now rewrite Hf.
  - rewrite (Hnone g) by apply list_elem_of_here.
    apply IH; [|exact Hf]. intros g' Hg'. apply Hnone. now apply list_elem_of_further.
Qed.

Lemma readval_unreadable (name : string) (field : list string) :
  (forall f, f ∈ field ->
     ReadFile F ("/sys/class/power_supply/" +:+ name +:+ "/" +:+ f) = None) ->
  Discrete.readval L F name field = 0.
Proof.
  intros Hnone. unfold Discrete.readval. cbv zeta.
  rewrite first_readable_none.
  - now rewrite TrimSpace_zero.
  - intros f Hf. rewrite <- (Hnone f Hf). unfold Discrete.powerSupply.
    now rewrite !string_append_assoc.
Qed.

Lemma aggregate_no_current (batts : list string) :
  (forall name, name ∈ batts -> HasPrefix name "BAT" = true ->
     ReadFile F ("/sys/class/power_supply/" +:+ name +:+ "/" +:+ "current_now") = None) ->
  forall enFull enNow,
    (fold_left (Discrete.batt_step L F) batts (enFull, enNow, 0)).2 = 0.
Proof.
  induction batts as [|name rest IH]; intros Hnone enFull enNow; [reflexivity|].
  simpl. destruct (HasPrefix name "BAT") eqn:Hp; simpl.
  - rewrite (readval_unreadable name ["current_now"]).
    + apply IH. intros n Hn. apply Hnone. now apply list_elem_of_further.
    + intros f Hf. apply list_elem_of_singleton in Hf as ->.
      apply Hnone; [apply list_elem_of_here|exact Hp].
  - apply IH. intros n Hn. apply Hnone. now apply list_elem_of_further.
Qed.

End Readval.

(** C10.  [readval] returns 0 when none of the candidate files can be
    read (it keeps the byte ['0']), and when the content of the first one
    that can be read, once trimmed, is not an integer.  So a battery whose
    [current_now] cannot be read adds nothing to the current, and when
    that holds of every battery listed the line carries no time left. *)
Theorem readval_default (L : golib) (F : fs) (name : string) :
  TrimSpace L "0" = "0" ->
  (forall field,
      (forall f, f ∈ field ->
         ReadFile F ("/sys/class/power_supply/" +:+ name +:+ "/" +:+ f) = None) ->
      Discrete.readval L F name field = 0)
  /\ (forall pre f post content,
        (forall g, g ∈ pre ->
           ReadFile F ("/sys/class/power_supply/" +:+ name +:+ "/" +:+ g) = None) ->
        ReadFile F ("/sys/class/power_supply/" +:+ name +:+ "/" +:+ f) = Some content ->
        Atoi (TrimSpace L content) = None ->
        Discrete.readval L F name (pre ++ f :: post) = 0)
  /\ (forall plugged batts enFull enNow curNow,
        ReadFile F online_path = Some plugged ->
        ReadDir F "/sys/class/power_supply/" = Some batts ->
        (forall b, b ∈ batts -> HasPrefix b "BAT" = true ->
           ReadFile F ("/sys/class/power_supply/" +:+ b +:+ "/" +:+ "current_now") = None) ->
        Discrete.aggregate L F batts = (enFull, enNow, curNow) ->
        curNow = 0
        /\ (enFull <> 0 ->
              exists icon,
                Discrete.updatePower L F
                = Returned (power_line icon (percent enNow enFull) ""))).
Proof.
  intros Htrim. split; [|split].
  - intros field Hnone. now apply readval_unreadable.
  - intros pre f post content Hnone Hf Hatoi.
    unfold Discrete.readval. cbv zeta.
    rewrite (first_readable_first F _ pre post f content).
    + now rewrite Hatoi.
    + intros g Hg. rewrite <- (Hnone g Hg). unfold Discrete.powerSupply.
      now rewrite !string_append_assoc.
    + rewrite <- Hf. unfold Discrete.powerSupply.
      now rewrite !string_append_assoc.
  - intros plugged batts enFull enNow curNow Hac Hdir Hnone Hagg.
    assert (Hcur : curNow = 0).
    { pose proof (aggregate_no_current L F Htrim batts Hnone 0 0) as H0.
      unfold Discrete.aggregate in Hagg. rewrite Hagg in H0. exact H0. }
    split; [exact Hcur|]. intros Hfull.
    rewrite (Discrete_updatePower_eq L F plugged batts _ _ _ Hac Hdir Hagg).
    destruct (Z.eqb_spec enFull 0); [contradiction|].
    subst curNow. simpl.
    destruct (String.eqb plugged ("1" +:+ nl)); eexists; reflexivity.
Qed.

Lemma readval_default_witness :
  Discrete.readval ref_lib (battery_files ("0" +:+ nl) None) "BAT0" ["current_now"] = 0
  /\ Discrete.readval ref_lib (battery_files ("0" +:+ nl) (Some "n/a")) "BAT0" ["current_now"] = 0
  /\ exists icon,
      Discrete.updatePower ref_lib (battery_files ("0" +:+ nl) None)
      = Returned (power_line icon 50 "").
Proof.
  split; [|split].
  - apply (proj1 (readval_default ref_lib (battery_files ("0" +:+ nl) None) "BAT0" eq_refl)).
    intros f Hf. apply list_elem_of_singleton in Hf as ->. reflexivity.
  - apply (proj1 (proj2 (readval_default ref_lib (battery_files ("0" +:+ nl) (Some "n/a"))
                           "BAT0" eq_refl)) [] "current_now" [] "n/a");
      [intros g Hg; inversion Hg|reflexivity|reflexivity].
  - apply (proj2 (proj2 (readval_default ref_lib (battery_files ("0" +:+ nl) None)
                           "BAT0" eq_refl)) ("0" +:+ nl) ["AC"; "BAT0"] 2000 1000 0);
      [reflexivity|reflexivity| |reflexivity|discriminate].
    intros b Hb Hp. apply elem_of_cons in Hb as [->|Hb]; [discriminate|].
    apply list_elem_of_singleton in Hb as ->. reflexivity.
Defined.

(** ** The conversion of an integer to [float32] *)

Lemma digits2_size (p : positive) : digits2_pos p = Pos.size p.
Proof. induction p; simpl; congruence. Qed.

Lemma digits2_log2 (p : positive) : Z.pos (digits2_pos p) = Z.log2 (Z.pos p) + 1.
Proof. rewrite digits2_size. destruct p; simpl; lia. Qed.

Lemma iter_pos_nat {A : Type} (f : A -> A) (p : positive) (x : A) :
  SpecFloat.iter_pos f p x = Nat.iter (Pos.to_nat p) f x.
Proof.
  revert x. induction p as [p IH|p IH|]; intros x; cbn [SpecFloat.iter_pos].
  - rewrite !IH, <- Nat.iter_succ_r, <- Nat.iter_add. f_equal. lia.
  - rewrite !IH, <- Nat.iter_add. f_equal. lia.
  - reflexivity.
Qed.

Lemma shr_1_nonneg (m : Z) (r s : bool) :
  0 <= m ->
  shr_1 {| shr_m := m; shr_r := r; shr_s := s |}
  = {| shr_m := m / 2; shr_r := Z.odd m; shr_s := r || s |}.
Proof.
  intros Hm. rewrite <- Z.div2_div.
  destruct m as [|[p|p|]|p]; try reflexivity. lia.
Qed.

Lemma sticky_step (m k : Z) :
  0 <= m -> 0 <= k ->
  Z.odd (m / 2 ^ k) || negb (m mod 2 ^ k =? 0) = negb (m mod 2 ^ (k + 1) =? 0).
Proof.
  intros Hm Hk.
  assert (Hp : 0 < 2 ^ k) by (apply Z.pow_pos_nonneg; lia).
  rewrite Z.pow_add_r, Z.pow_1_r by lia.
  rewrite Z.rem_mul_r by lia.
  pose proof (Z.mod_pos_bound m (2 ^ k) Hp) as Hb.
  rewrite (Zodd_mod (m / 2 ^ k)).
  pose proof (Z.mod_pos_bound (m / 2 ^ k) 2 ltac:(lia)) as Hb2.
  destruct (Z.eqb_spec ((m / 2 ^ k) mod 2) 1) as [E|E];
    destruct (Z.eqb_spec (m mod 2 ^ k) 0) as [E'|E'];
    destruct (Z.eqb_spec (m mod 2 ^ k + 2 ^ k * ((m / 2 ^ k) mod 2)) 0) as [E''|E''];
    simpl; try reflexivity; nia.
Qed.

Lemma shr_iter (m : Z) (k : nat) :
  0 <= m ->
  Nat.iter (S k) shr_1 {| shr_m := m; shr_r := false; shr_s := false |}
  = {| shr_m := m / 2 ^ Z.of_nat (S k);
       shr_r := Z.odd (m / 2 ^ Z.of_nat k);
       shr_s := negb (m mod 2 ^ Z.of_nat k =? 0) |}.
Proof.
  intros Hm. induction k as [|k IH].
  - unfold Nat.iter; cbn [nat_rect]. rewrite shr_1_nonneg by exact Hm.
    change (Z.of_nat 1) with 1. change (Z.of_nat 0) with 0.
    rewrite Z.pow_1_r, Z.pow_0_r, Z.div_1_r, Z.mod_1_r. reflexivity.
  - change (Nat.iter (S (S k)) shr_1 ?x) with (shr_1 (Nat.iter (S k) shr_1 x)).
    rewrite IH.
    assert (Hp : 0 < 2 ^ Z.of_nat (S k)) by (apply Z.pow_pos_nonneg; lia).
    rewrite shr_1_nonneg by (apply Z.div_pos; lia).
    f_equal.
    + rewrite Z.div_div by lia.
      rewrite (Nat2Z.inj_succ (S k)), Z.pow_succ_r by lia. f_equal. lia.
    + rewrite (Nat2Z.inj_succ k). rewrite <- Z.add_1_r.
      apply sticky_step; lia.
Qed.

Lemma fexp32 (x : Z) : fexp 24 128 x = Z.max (x - 24) (-149).
Proof. reflexivity. Qed.

Lemma iter_xO_value (p k : positive) :
  Z.pos (Pos.iter xO p k) = Z.pos p * 2 ^ Z.pos k.
Proof.
  induction k as [|k IH] using Pos.peano_ind.
  - simpl. lia.
  - rewrite Pos.iter_succ, Pos2Z.inj_xO, IH, Pos2Z.inj_succ, Z.pow_succ_r by lia. lia.
Qed.

Lemma iter_xO_digits (p k : positive) :
  digits2_pos (Pos.iter xO p k) = (digits2_pos p + k)%positive.
Proof.
  induction k as [|k IH] using Pos.peano_ind.
  - simpl. lia.
  - rewrite Pos.iter_succ. simpl. rewrite IH. lia.
Qed.

Lemma digits2_bounds (p : positive) :
  2 ^ (Z.pos (digits2_pos p) - 1) <= Z.pos p < 2 ^ Z.pos (digits2_pos p).
Proof.
  rewrite digits2_log2.
  pose proof (Z.log2_spec (Z.pos p) ltac:(lia)) as H.
  replace (Z.log2 (Z.pos p) + 1 - 1) with (Z.log2 (Z.pos p)) by lia.
  replace (Z.log2 (Z.pos p) + 1) with (Z.succ (Z.log2 (Z.pos p))) by lia.
  exact H.
Qed.

Lemma digits2_unique (p : positive) (d : Z) :
  2 ^ (d - 1) <= Z.pos p < 2 ^ d -> Z.pos (digits2_pos p) = d.
Proof.
  intros H. rewrite digits2_log2.
  assert (0 < d).
  { destruct (Z.ltb_spec 0 d); [assumption|].
    assert (2 ^ d <= 2 ^ 0) by (destruct (Z.eqb_spec d 0); [subst; lia|rewrite Z.pow_neg_r by lia; lia]).
    simpl in *. lia. }
  symmetry. replace d with (Z.succ (d - 1)) at 1 by lia.
  replace (Z.log2 (Z.pos p) + 1) with (Z.succ (Z.log2 (Z.pos p))) by lia. f_equal.
  symmetry. apply Z.log2_unique; [lia|]. replace (Z.succ (d - 1)) with d by lia. exact H.
Qed.

Lemma binary_round_aux_canonical (m : positive) (e : Z) :
  Z.pos (digits2_pos m) = 24 -> -149 <= e <= 104 ->
  binary_round_aux 24 128 false (Z.pos m) e loc_Exact = S754_finite false m e.
Proof.
  intros Hd He.
  assert (Hs : shr_fexp 24 128 (Z.pos m) e loc_Exact
               = ({| shr_m := Z.pos m; shr_r := false; shr_s := false |}, e)).
  { unfold shr_fexp. rewrite fexp32. cbn [Zdigits2 shr_record_of_loc]. rewrite Hd.
    replace (Z.max (24 + e - 24) (-149) - e) with 0 by lia. reflexivity. }
  unfold binary_round_aux. rewrite Hs. cbn [shr_m loc_of_shr_record round_nearest_even].
  rewrite Hs. cbn [shr_m].
  replace (e <=? 128 - 24) with true by (symmetry; apply Z.leb_le; lia).
  reflexivity.
Qed.

Lemma float32_small (p : positive) :
  Z.pos (digits2_pos p) <= 24 ->
  exists m, float32_of_int (Z.pos p) = S754_finite false m (Z.pos (digits2_pos p) - 24)
            /\ Z.pos m = Z.pos p * 2 ^ (24 - Z.pos (digits2_pos p)).
Proof.
  intros Hd. unfold float32_of_int, binary_normalize, binary_round.
  rewrite fexp32, Z.add_0_r.
  set (d := Z.pos (digits2_pos p)) in *.
  replace (Z.max (d - 24) (-149)) with (d - 24) by lia.
  unfold shl_align. rewrite Z.sub_0_r.
  destruct (d - 24) as [|k|k] eqn:E; [|lia|].
  - exists p. split.
    + apply binary_round_aux_canonical; [fold d|]; lia.
    + replace (24 - d) with 0 by lia. lia.
  - exists (Pos.iter xO p k). split.
    + apply binary_round_aux_canonical; [|lia].
      rewrite iter_xO_digits, Pos2Z.inj_add. fold d. lia.
    + rewrite iter_xO_value. f_equal. f_equal. lia.
Qed.

Lemma shr_fexp_positive (p k : positive) :
  24 < Z.pos (digits2_pos p) -> Z.pos k = Z.pos (digits2_pos p) - 24 ->
  shr_fexp 24 128 (Z.pos p) 0 loc_Exact
  = ({| shr_m := Z.pos p / 2 ^ Z.pos k;
        shr_r := Z.odd (Z.pos p / 2 ^ (Z.pos k - 1));
        shr_s := negb (Z.pos p mod 2 ^ (Z.pos k - 1) =? 0) |}, Z.pos k).
Proof.
  intros Hd Hk. unfold shr_fexp. rewrite fexp32. cbn [Zdigits2 shr_record_of_loc].
  rewrite Z.add_0_r, Z.sub_0_r.
  replace (Z.max (Z.pos (digits2_pos p) - 24) (-149)) with (Z.pos k) by lia.
  unfold shr. rewrite iter_pos_nat.
  destruct (Pos.to_nat k) as [|j] eqn:Ej; [lia|].
  rewrite shr_iter by lia.
  replace (Z.of_nat (S j)) with (Z.pos k) by lia.
  replace (Z.of_nat j) with (Z.pos k - 1) by lia.
  reflexivity.
Qed.

Lemma quotient_bounds (p k : positive) :
  Z.pos k = Z.pos (digits2_pos p) - 24 ->
  2 ^ 23 <= Z.pos p / 2 ^ Z.pos k < 2 ^ 24.
Proof.
  intros Hk. pose proof (digits2_bounds p) as [Hlo Hhi].
  assert (Hp : 0 < 2 ^ Z.pos k) by (apply Z.pow_pos_nonneg; lia).
  replace (Z.pos (digits2_pos p) - 1) with (23 + Z.pos k) in Hlo by lia.
  replace (Z.pos (digits2_pos p)) with (24 + Z.pos k) in Hhi by lia.
  rewrite Z.pow_add_r in Hlo, Hhi by lia.
  split.
  - apply Z.div_le_lower_bound; lia.
  - apply Z.div_lt_upper_bound; lia.
Qed.

Lemma nearest24_large (p k : positive) :
  Z.pos k = Z.pos (digits2_pos p) - 24 ->
  nearest24 (Z.pos p)
  = let q := Z.pos p / 2 ^ Z.pos k in
    let up := Z.odd (Z.pos p / 2 ^ (Z.pos k - 1))
              && (negb (Z.pos p mod 2 ^ (Z.pos k - 1) =? 0) || Z.odd q) in
    let m := if up then q + 1 else q in
    if m <? 2 ^ 24 then (m, Z.pos k) else (2 ^ 23, Z.pos k + 1).
Proof.
  intros Hk. unfold nearest24. rewrite <- digits2_log2.
  destruct (Z.leb_spec (Z.pos (digits2_pos p)) 24); [lia|].
  rewrite <- Hk. reflexivity.
Qed.

Lemma float32_large (p : positive) :
  24 < Z.pos (digits2_pos p) <= 127 ->
  exists m, float32_of_int (Z.pos p) = S754_finite false m (snd (nearest24 (Z.pos p)))
            /\ Z.pos m = fst (nearest24 (Z.pos p)).
Proof.
  intros Hd.
  destruct (Z.pos (digits2_pos p) - 24) as [|k|k] eqn:Ek; [lia| |lia].
  symmetry in Ek.
  rewrite (nearest24_large p k Ek). cbv zeta.
  pose proof (quotient_bounds p k Ek) as Hq.
  unfold float32_of_int, binary_normalize, binary_round.
  rewrite fexp32, Z.add_0_r.
  replace (Z.max (Z.pos (digits2_pos p) - 24) (-149)) with (Z.pos k) by lia.
  unfold shl_align. rewrite Z.sub_0_r.
  unfold binary_round_aux.
  rewrite (shr_fexp_positive p k) by lia.
  cbn [shr_m shr_r shr_s].
  set (q := Z.pos p / 2 ^ Z.pos k) in *.
  set (rb := Z.odd (Z.pos p / 2 ^ (Z.pos k - 1))).
  set (sb := negb (Z.pos p mod 2 ^ (Z.pos k - 1) =? 0)).
  assert (Hround : round_nearest_even q
                     (loc_of_shr_record {| shr_m := q; shr_r := rb; shr_s := sb |})
                   = if rb && (sb || Z.odd q) then q + 1 else q).
  { rewrite <- (Z.negb_even q). destruct rb, sb; simpl; try reflexivity.
    now destruct (Z.even q). }
  rewrite Hround. clear Hround.
  set (m1 := if rb && (sb || Z.odd q) then q + 1 else q).
  assert (Hm1 : 2 ^ 23 <= m1 <= 2 ^ 24) by (unfold m1; destruct (rb && (sb || Z.odd q)); lia).
  destruct (Z.ltb_spec m1 (2 ^ 24)) as [Hlt|Hge].
  - destruct m1 as [|m|m] eqn:Em; [lia| |lia].
    assert (Hdm : Z.pos (digits2_pos m) = 24).
    { apply digits2_unique. change (24 - 1) with 23. lia. }
    assert (Hs : shr_fexp 24 128 (Z.pos m) (Z.pos k) loc_Exact
                 = ({| shr_m := Z.pos m; shr_r := false; shr_s := false |}, Z.pos k)).
    { unfold shr_fexp. rewrite fexp32. cbn [Zdigits2 shr_record_of_loc]. rewrite Hdm.
      replace (Z.max (24 + Z.pos k - 24) (-149) - Z.pos k) with 0 by lia. reflexivity. }
    rewrite Hs. cbn [shr_m fst snd].
    replace (Z.pos k <=? 128 - 24) with true by (symmetry; apply Z.leb_le; lia).
    exists m. split; reflexivity.
  - assert (Em : m1 = 2 ^ 24) by lia. rewrite Em.
    assert (Hs : shr_fexp 24 128 (2 ^ 24) (Z.pos k) loc_Exact
                 = ({| shr_m := 2 ^ 23; shr_r := false; shr_s := false |}, Z.pos k + 1)).
    { unfold shr_fexp. rewrite fexp32.
      change (Zdigits2 (2 ^ 24)) with 25.
      replace (Z.max (25 + Z.pos k - 24) (-149) - Z.pos k) with 1 by lia. reflexivity. }
    rewrite Hs. cbn [shr_m fst snd].
    replace (Z.pos k + 1 <=? 128 - 24) with true by (symmetry; apply Z.leb_le; lia).
    exists (2 ^ 23)%positive. split; reflexivity.
Qed.

Lemma pow2_le (a b : Z) : 0 <= a <= b -> 2 ^ a <= 2 ^ b.
Proof. intros H. apply Z.pow_le_mono_r; lia. Qed.

(** The conversion of a positive integer gives the nearest float32. *)
Lemma float32_of_int_nearest (n : Z) :
  0 < n < 2 ^ 127 ->
  exists m, float32_of_int n = S754_finite false m (snd (nearest24 n))
            /\ Z.pos m = fst (nearest24 n).
Proof.
  intros Hn. destruct n as [|p|p]; [lia| |lia].
  destruct (Z.leb_spec (Z.pos (digits2_pos p)) 24) as [Hsmall|Hlarge].
  - destruct (float32_small p Hsmall) as (m & E & Em). exists m.
    unfold nearest24. rewrite <- digits2_log2.
    destruct (Z.leb_spec (Z.pos (digits2_pos p)) 24); [|lia].
    split; [exact E|exact Em].
  - apply float32_large. split; [exact Hlarge|].
    pose proof (digits2_bounds p) as [Hlo _].
    destruct (Z.leb_spec (Z.pos (digits2_pos p)) 127); [assumption|].
    pose proof (pow2_le 127 (Z.pos (digits2_pos p) - 1) ltac:(lia)). lia.
Qed.

Example nearest24_ex :
  (nearest24 1000, nearest24 16777217, nearest24 16777219, nearest24 1048575967,
   nearest24 1048575968, nearest24 1073741823)
  = ((16384000, -14), (8388608, 1), (8388610, 1), (16383999, 6),
     (16384000, 6), (8388608, 7))
  /\ float32_of_int 1048575967 = S754_finite false 16383999 6
  /\ float32_of_int 1073741823 = S754_finite false 8388608 7.
Proof. repeat split. Qed.

Lemma f32_geb_finite (m mc : positive) (e ec : Z) :
  f32_geb (S754_finite false m e) (S754_finite false mc ec)
  = (ec <? e) || ((ec =? e) && (Z.pos mc <=? Z.pos m)).
Proof.
  unfold f32_geb, SFleb, SFcompare.
  destruct (Z.compare_spec ec e) as [E|E|E].
  - subst. rewrite Z.ltb_irrefl, Z.eqb_refl. simpl.
    change (Pos.compare_cont Eq mc m) with (Z.pos mc ?= Z.pos m).
    unfold Z.leb. now destruct (Z.pos mc ?= Z.pos m).
  - now destruct (Z.ltb_spec ec e); [|lia].
  - destruct (Z.ltb_spec ec e); [lia|]. now destruct (Z.eqb_spec ec e); [lia|].
Qed.

(** Two integers of at most 24 bits compare as their conversions do. *)
Lemma f32_geb_small (a c : positive) :
  Z.pos (digits2_pos a) <= 24 -> Z.pos (digits2_pos c) <= 24 ->
  f32_geb (float32_of_int (Z.pos a)) (float32_of_int (Z.pos c)) = (Z.pos c <=? Z.pos a).
Proof.
  intros Ha Hc.
  destruct (float32_small a Ha) as (ma & -> & Ema).
  destruct (float32_small c Hc) as (mc & -> & Emc).
  rewrite f32_geb_finite, Ema, Emc.
  pose proof (digits2_bounds a) as [Hla Hua].
  pose proof (digits2_bounds c) as [Hlc Huc].
  set (da := Z.pos (digits2_pos a)) in *. set (dc := Z.pos (digits2_pos c)) in *.
  assert (0 < da) by (unfold da; lia). assert (0 < dc) by (unfold dc; lia).
  clearbody da dc.
  destruct (Z.ltb_spec (dc - 24) (da - 24)) as [Hlt|Hge]; cbn [orb andb].
  - symmetry. apply Z.leb_le.
    pose proof (pow2_le dc (da - 1) ltac:(lia)). lia.
  - destruct (Z.eqb_spec (dc - 24) (da - 24)) as [E|E]; cbn [orb andb].
    + assert (dc = da) by lia. subst dc.
      assert (0 < 2 ^ (24 - da)) by (apply Z.pow_pos_nonneg; lia).
      destruct (Z.leb_spec (Z.pos c) (Z.pos a)); [apply Z.leb_le|apply Z.leb_gt]; nia.
    + symmetry. apply Z.leb_gt.
      pose proof (pow2_le da (dc - 1) ltac:(lia)). lia.
Qed.

Lemma f32_geb_large_small (a c : positive) :
  24 < Z.pos (digits2_pos a) <= 127 -> Z.pos (digits2_pos c) <= 24 ->
  f32_geb (float32_of_int (Z.pos a)) (float32_of_int (Z.pos c)) = true.
Proof.
  intros Ha Hc.
  destruct (float32_large a Ha) as (ma & -> & Ema).
  destruct (float32_small c Hc) as (mc & -> & Emc).
  rewrite f32_geb_finite.
  destruct (Z.pos (digits2_pos a) - 24) as [|k|k] eqn:Ek; [lia| |lia].
  symmetry in Ek. rewrite (nearest24_large a k Ek). cbv zeta.
  match goal with |- context [if ?b then (_, _) else (_, _)] => destruct b end; cbn [snd];
    (destruct (Z.ltb_spec (Z.pos (digits2_pos c) - 24) (Z.pos k)); [reflexivity|lia])
    || (destruct (Z.ltb_spec (Z.pos (digits2_pos c) - 24) (Z.pos k + 1)); [reflexivity|lia]).
Qed.

(** The ceiling of [fixed]: 1000 * 1024 * 1024, a float32 itself. *)
Lemma float32_ceiling :
  float32_of_int (1000 * 1024 * 1024) = S754_finite false 16384000 6.
Proof. reflexivity. Qed.

Lemma f32_geb_ceiling (a : positive) :
  Z.pos a < 2 ^ 63 ->
  f32_geb (float32_of_int (Z.pos a)) (float32_of_int (1000 * 1024 * 1024))
  = (1048575968 <=? Z.pos a).
Proof.
  intros Hmax. rewrite float32_ceiling.
  pose proof (digits2_bounds a) as [Hlo Hhi].
  assert (Hd63 : Z.pos (digits2_pos a) <= 63).
  { destruct (Z.leb_spec (Z.pos (digits2_pos a)) 63); [assumption|].
    pose proof (pow2_le 63 (Z.pos (digits2_pos a) - 1) ltac:(lia)). lia. }
  destruct (Z.leb_spec (Z.pos (digits2_pos a)) 24) as [Hsmall|Hlarge].
  - destruct (float32_small a Hsmall) as (ma & -> & Ema).
    rewrite f32_geb_finite.
    destruct (Z.ltb_spec 6 (Z.pos (digits2_pos a) - 24)); [lia|].
    destruct (Z.eqb_spec 6 (Z.pos (digits2_pos a) - 24)); [lia|]. cbn [orb andb].
    symmetry. apply Z.leb_gt.
    pose proof (pow2_le (Z.pos (digits2_pos a)) 24 ltac:(lia)). lia.
  - destruct (float32_large a ltac:(lia)) as (ma & -> & Ema).
    rewrite f32_geb_finite, Ema. clear Ema ma.
    destruct (Z.pos (digits2_pos a) - 24) as [|k|k] eqn:Ek; [lia| |lia].
    symmetry in Ek. rewrite (nearest24_large a k Ek). cbv zeta.
    pose proof (quotient_bounds a k Ek) as Hq.
    replace (Z.pos (digits2_pos a) - 1) with (23 + Z.pos k) in Hlo by lia.
    replace (Z.pos (digits2_pos a)) with (24 + Z.pos k) in Hhi by lia.
    destruct (Z.ltb_spec (Z.pos k) 6) as [Hk|Hk]; [|destruct (Z.eqb_spec (Z.pos k) 6) as [Hk6|Hk6]].
    + (* below 2^29 *)
      pose proof (pow2_le (24 + Z.pos k) 29 ltac:(lia)).
      replace (1048575968 <=? Z.pos a) with false by (symmetry; apply Z.leb_gt; lia).
      match goal with |- context [if ?b then (_, _) else (_, _)] => destruct b end;
        cbn [fst snd].
      * destruct (Z.ltb_spec 6 (Z.pos k)); [lia|].
        now destruct (Z.eqb_spec 6 (Z.pos k)); [lia|].
      * destruct (Z.ltb_spec 6 (Z.pos k + 1)); [lia|].
        destruct (Z.eqb_spec 6 (Z.pos k + 1)); reflexivity.
    + (* between 2^29 and 2^30 *)
      rewrite Hk6 in *. change (6 - 1) with 5.
      change (2 ^ 6) with 64 in *. change (2 ^ 5) with 32.
      change (2 ^ 24) with 16777216 in *. change (2 ^ 23) with 8388608 in *.
      rewrite !Zodd_mod.
      destruct (Z.eqb_spec ((Z.pos a / 32) mod 2) 1) as [Hr|Hr];
        destruct (Z.eqb_spec (Z.pos a mod 32) 0) as [Hs|Hs];
        destruct (Z.eqb_spec ((Z.pos a / 64) mod 2) 1) as [Ho|Ho];
        cbn [andb orb negb];
        match goal with |- context [if ?b then (_, _) else (_, _)] => destruct b eqn:Eb end;
        cbn [fst snd]; cbn;
        try (apply Z.ltb_lt in Eb); try (apply Z.ltb_ge in Eb);
        repeat match goal with
               | |- context [?x <=? ?y] => destruct (Z.leb_spec x y)
               end; try reflexivity; exfalso;
        Z.div_mod_to_equations; lia.
    + (* from 2^30 on *)
      pose proof (pow2_le 30 (23 + Z.pos k) ltac:(lia)).
      replace (1048575968 <=? Z.pos a) with true by (symmetry; apply Z.leb_le; lia).
      match goal with |- context [if ?b then (_, _) else (_, _)] => destruct b end;
        cbn [fst snd].
      * now destruct (Z.ltb_spec 6 (Z.pos k)); [|lia].
      * now destruct (Z.ltb_spec 6 (Z.pos k + 1)); [|lia].
Qed.

Lemma f32_geb_below_24_bits (n : Z) (c : positive) :
  0 <= n < 2 ^ 63 -> Z.pos (digits2_pos c) <= 24 ->
  f32_geb (float32_of_int n) (float32_of_int (Z.pos c)) = (Z.pos c <=? n).
Proof.
  intros Hn Hc. destruct n as [|a|a]; [| |lia].
  - destruct (float32_small c Hc) as (mc & -> & _). reflexivity.
  - pose proof (digits2_bounds a) as [Hlo Hhi].
    destruct (Z.leb_spec (Z.pos (digits2_pos a)) 24) as [Hsmall|Hlarge].
    + now apply f32_geb_small.
    + assert (Z.pos (digits2_pos a) <= 63).
      { destruct (Z.leb_spec (Z.pos (digits2_pos a)) 63); [assumption|].
        pose proof (pow2_le 63 (Z.pos (digits2_pos a) - 1) ltac:(lia)). lia. }
      rewrite f32_geb_large_small by lia.
      symmetry. apply Z.leb_le.
      pose proof (digits2_bounds c) as [_ Hc'].
      pose proof (pow2_le (Z.pos (digits2_pos c)) 24 ltac:(lia)).
      pose proof (pow2_le 24 (Z.pos (digits2_pos a) - 1) ltac:(lia)). lia.
Qed.

Lemma f32_geb_above (n : Z) :
  0 <= n < 2 ^ 63 ->
  f32_geb (float32_of_int n) (float32_of_int (1000 * 1024 * 1024)) = (1048575968 <=? n).
Proof.
  intros Hn. destruct n as [|a|a]; [reflexivity| |lia].
  apply f32_geb_ceiling. lia.
Qed.

(** ** The rate formatter *)

Lemma Replace1_same (s : string) (c : ascii) : Replace1 s c (String c "") = s.
Proof.
  induction s as [|a r IH]; [reflexivity|].
  cbn [Replace1]. destruct (Ascii.eqb_spec a c) as [->|_]; [reflexivity|].
  now rewrite IH.
Qed.

(** C1, as amended.  For a rate in [int], [fixed] returns the label, a
    blank and ERR between colour escapes when the rate is negative; the
    overflow marker from 1048575968 on, since the rate is compared after
    its conversion to [float32], which rounds 1048575968 and the 31 rates
    after it up to 1000 * 1024 * 1024; the rate as a [float32] divided by
    1024 * 1024, with the suffix MiB/s, from 1000 * 1024 on and below
    1048575968; divided by 1024, with the suffix KiB/s, from 1000 on and
    below 1000 * 1024; and as it is, with the suffix B/s, below 1000. *)
Theorem fixed_tiers (pre : string) (rate : Z) :
  int_min <= rate <= int_max ->
  (rate < 0 -> Discrete.fixed pre rate = pre +:+ " " +:+ c03 +:+ "ERR" +:+ c01)
  /\ (1048575968 <= rate ->
        Discrete.fixed pre rate = c04 +:+ pre +:+ c03 +:+ "ERR" +:+ c01)
  /\ (1000 * 1024 <= rate < 1048575968 ->
        Discrete.fixed pre rate
        = c04 +:+ pre +:+ c01
            +:+ Discrete.formated (f32_div (float32_of_int rate) (float32_of_int (1024 * 1024)))
            +:+ "MiB/s")
  /\ (1000 <= rate < 1000 * 1024 ->
        Discrete.fixed pre rate
        = pre +:+ Discrete.formated (f32_div (float32_of_int rate) (float32_of_int 1024))
            +:+ "KiB/s")
  /\ (0 <= rate < 1000 ->
        Discrete.fixed pre rate = pre +:+ Discrete.formated (float32_of_int rate) +:+ "B/s").
Proof.
  intros Hrange. split; [apply fixed_negative|].
  assert (Hpos : 0 <= rate -> 0 <= rate < 2 ^ 63)
    by (unfold int_min, int_max in Hrange; lia).
  unfold Discrete.fixed, floatSeparator.
  change (1000 * 1024) with (Z.pos 1024000).
  repeat split; intros H;
    (destruct (Z.ltb_spec rate 0); [lia|]);
    rewrite f32_geb_above by (apply Hpos; lia);
    rewrite ?Replace1_same;
    rewrite (f32_geb_below_24_bits rate 1024000) by (try apply Hpos; try reflexivity; lia || discriminate);
    rewrite (f32_geb_below_24_bits rate 1000) by (try apply Hpos; try reflexivity; lia || discriminate).
  - now destruct (Z.leb_spec 1048575968 rate); [|lia].
  - destruct (Z.leb_spec 1048575968 rate); [lia|].
    destruct (Z.leb_spec (Z.pos 1024000) rate); [|lia].
    now rewrite !string_append_assoc.
  - destruct (Z.leb_spec 1048575968 rate); [lia|].
    destruct (Z.leb_spec (Z.pos 1024000) rate); [lia|].
    now destruct (Z.leb_spec 1000 rate); [|lia].
  - destruct (Z.leb_spec 1048575968 rate); [lia|].
    destruct (Z.leb_spec (Z.pos 1024000) rate); [lia|].
    now destruct (Z.leb_spec 1000 rate); [lia|].
Qed.

Lemma fixed_tiers_witness :
  Discrete.fixed "RX" 500 = "RX500B/s"
  /\ Discrete.fixed "RX" 2000 = "RX 2.0KiB/s"
  /\ Discrete.fixed "RX" 2000000 = c04 +:+ "RX" +:+ c01 +:+ " 1.9MiB/s"
  /\ Discrete.fixed "RX" 1048575968 = c04 +:+ "RX" +:+ c03 +:+ "ERR" +:+ c01
  /\ Discrete.fixed "RX" (-1) = "RX " +:+ c03 +:+ "ERR" +:+ c01.
Proof.
  assert (R : forall rate, in_int rate = true -> int_min <= rate <= int_max)
    by (intros rate; apply in_int_true).
  split; [|split; [|split; [|split]]].
  - exact (eq_trans (proj2 (proj2 (proj2 (proj2 (fixed_tiers "RX" 500 (R 500 eq_refl)))))
                       ltac:(lia)) eq_refl).
  - exact (eq_trans (proj1 (proj2 (proj2 (proj2 (fixed_tiers "RX" 2000 (R 2000 eq_refl)))))
                       ltac:(lia)) eq_refl).
  - exact (eq_trans (proj1 (proj2 (proj2 (fixed_tiers "RX" 2000000 (R 2000000 eq_refl))))
                       ltac:(lia)) eq_refl).
  - exact (eq_trans (proj1 (proj2 (fixed_tiers "RX" 1048575968 (R 1048575968 eq_refl)))
                       ltac:(lia)) eq_refl).
  - exact (eq_trans (proj1 (fixed_tiers "RX" (-1) (R (-1) eq_refl)) ltac:(lia)) eq_refl).
Defined.

(** C1, as stated, fails just below the ceiling: 1048575999 is
    less than 1000 * 1024 * 1024, and [fixed] returns the overflow
    marker for it, not a rate in MiB/s. *)
Lemma fixed_ceiling_counterexample :
  1000 * 1024 <= 1048575999 < 1000 * 1024 * 1024
  /\ float32_of_int 1048575999 = float32_of_int (1000 * 1024 * 1024)
  /\ Discrete.fixed "RX" 1048575999 = c04 +:+ "RX" +:+ c03 +:+ "ERR" +:+ c01.
Proof. repeat split; vm_compute; try reflexivity; discriminate. Qed.

(** * Further properties of the code *)

(** ** The key=value table, continued *)

Lemma last_omap_is_Some {A B : Type} (f : A -> option B) (l : list A) :
  is_Some (last (omap f l)) <-> exists x, x ∈ l /\ is_Some (f x).
Proof.
  induction l as [|a l IH] using rev_ind.
  - split; [intros [y Hy]; discriminate|intros (x & Hx & _); inversion Hx].
  - rewrite omap_app. simpl. destruct (f a) as [b|] eqn:Ea.
    + rewrite last_snoc. split; [|intros _; eexists; reflexivity].
      intros _. exists a. split; [apply elem_of_app; right; apply list_elem_of_here|].
      rewrite Ea. eexists. reflexivity.
    + rewrite app_nil_r, IH. split.
      * intros (x & Hx & Hs). exists x. split; [apply elem_of_app; now left|exact Hs].
      * intros (x & Hx & Hs). apply elem_of_app in Hx as [Hx|Hx]; [now exists x|].
        apply list_elem_of_singleton in Hx as ->. rewrite Ea in Hs.
        destruct Hs as [y Hy]. discriminate.
Qed.

Lemma value_for_is_Some (k text : string) :
  is_Some (value_for k text)
  <-> count_char "=" text = 1%nat /\ before_char "=" text = k.
Proof.
  unfold value_for, entry_of_line.
  destruct (Nat.eqb_spec (count_char "=" text) 1) as [E|E].
  - destruct (String.eqb_spec (before_char "=" text) k) as [Ek|Ek].
    + split; [intros _; now split|intros _; eexists; reflexivity].
    + split; [intros [y Hy]; discriminate|intros [_ Hk]; contradiction].
  - split; [intros [y Hy]; discriminate|intros [Hc _]; contradiction].
Qed.

(** X1.  The keys of the store parsed from a file that opens are the
    texts before the [=] of its lines with exactly one [=], and no
    others. *)
Theorem parseFile_keys (F : fs) (path : string) (lines : list string) (k : string) :
  OpenLines F path = Some lines ->
  is_Some (values (parseFile F path) !! k)
  <-> exists text, text ∈ lines /\ count_char "=" text = 1%nat /\ before_char "=" text = k.
Proof.
  intros Hopen. rewrite (parseFile_lookup F path lines k Hopen), last_omap_is_Some.
  split; intros (text & Hin & H); exists text; (split; [exact Hin|]);
    now apply value_for_is_Some.
Qed.

Lemma parseFile_keys_witness :
  is_Some (values (parseFile uevent_file "uevent") !! "n")
  /\ ~ is_Some (values (parseFile uevent_file "uevent") !! "b").
Proof.
  pose proof (parseFile_keys uevent_file "uevent" ["a=1"; "b"; "a=b=c"; "a=2"; "n=x"]) as T.
  split.
  - apply (T "n" eq_refl). exists "n=x". split; [|split; reflexivity].
    do 4 apply list_elem_of_further. apply list_elem_of_here.
  - intros H. apply (T "b" eq_refl) in H as (text & Hin & Hc & Hk).
    repeat (apply elem_of_cons in Hin as [->|Hin]; [discriminate|]).
    inversion Hin.
Defined.

(** ** The batteries, continued *)

Lemma wrap_add_l (a b : Z) : int_add (wrap a) b = wrap (a + b).
Proof.
  unfold int_add, wrap.
  f_equal. replace (((a + 2 ^ 63) mod 2 ^ 64 - 2 ^ 63 + b + 2 ^ 63))
    with ((a + 2 ^ 63) mod 2 ^ 64 + b) by lia.
  rewrite Zplus_mod_idemp_l. f_equal. lia.
Qed.

Lemma wrap_sub_l (a b : Z) : int_sub (wrap a) b = wrap (a - b).
Proof.
  unfold int_sub, wrap.
  f_equal. replace (((a + 2 ^ 63) mod 2 ^ 64 - 2 ^ 63 - b + 2 ^ 63))
    with ((a + 2 ^ 63) mod 2 ^ 64 + (- b)) by lia.
  rewrite Zplus_mod_idemp_l. f_equal. lia.
Qed.

Lemma Discrete_aggregate_from (L : golib) (F : fs) (batts : list string) (a b c : Z) :
  fold_left (Discrete.batt_step L F) batts (wrap a, wrap b, wrap c)
  = (wrap (a + Zsum (map (fun n => Discrete.readval L F n ["energy_full"; "charge_full"])
                         (filter is_battery batts))),
     wrap (b + Zsum (map (fun n => Discrete.readval L F n ["energy_now"; "charge_now"])
                         (filter is_battery batts))),
     wrap (c + Zsum (map (fun n => Discrete.readval L F n ["current_now"])
                         (filter is_battery batts)))).
Proof.
  revert a b c. induction batts as [|name rest IH]; intros a b c.
  - simpl. now rewrite !Z.add_0_r.
  - cbn [fold_left]. unfold Discrete.batt_step at 2. rewrite !filter_cons.
    destruct (decide (is_battery name)) as [Hb|Hb]; unfold is_battery in Hb.
    + apply Is_true_true in Hb. rewrite Hb. cbn [negb].
      rewrite !wrap_add_l, IH. unfold Zsum. cbn [map foldr]. now rewrite !Z.add_assoc.
    + apply Is_true_false in Hb. rewrite Hb. cbn [negb]. apply IH.
Qed.

Lemma Uevent_aggregate_from (F : fs) (batts : list string) (a b c : Z) :
  fold_left (Uevent.batt_step F) batts (wrap a, wrap b, wrap c)
  = (wrap (a + Zsum (map (fun n =>
                 SearchForInt (parseFile F ("/sys/class/power_supply/" +:+ n +:+ "/uevent"))
                   ["POWER_SUPPLY_ENERGY_FULL"; "POWER_SUPPLY_CHARGE_FULL"])
               (filter is_battery batts))),
     wrap (b + Zsum (map (fun n =>
                 SearchForInt (parseFile F ("/sys/class/power_supply/" +:+ n +:+ "/uevent"))
                   ["POWER_SUPPLY_ENERGY_NOW"; "POWR_SUPPLY_CHARGE_NOW"])
               (filter is_battery batts))),
     wrap (c + Zsum (map (fun n =>
                 SearchForInt (parseFile F ("/sys/class/power_supply/" +:+ n +:+ "/uevent"))
                   ["POWER_SUPPLY_CURRENT_NOW"; "POWER_SUPPLY_POWER_NOW"])
               (filter is_battery batts)))).
Proof.
  revert a b c. induction batts as [|name rest IH]; intros a b c.
  - simpl. now rewrite !Z.add_0_r.
  - cbn [fold_left]. unfold Uevent.batt_step at 2. rewrite !filter_cons.
    destruct (decide (is_battery name)) as [Hb|Hb]; unfold is_battery in Hb.
    + apply Is_true_true in Hb. rewrite Hb. cbn [negb].
      change (Uevent.powerSupply +:+ "/" +:+ name +:+ "/uevent")
        with ("/sys/class/power_supply/" +:+ name +:+ "/uevent").
      rewrite !wrap_add_l, IH. unfold Zsum. cbn [map foldr]. now rewrite !Z.add_assoc.
    + apply Is_true_false in Hb. rewrite Hb. cbn [negb]. apply IH.
Qed.

(** X2.  Both versions add up, over the entries of the directory whose
    name starts with BAT and over no others, the values read for each
    battery: the three totals are the sums of the values of the
    batteries, taken in [int]. *)
Theorem aggregate_sums (L : golib) (F : fs) (batts : list string) :
  Discrete.aggregate L F batts
  = (wrap (Zsum (map (fun n => Discrete.readval L F n ["energy_full"; "charge_full"])
                     (filter is_battery batts))),
     wrap (Zsum (map (fun n => Discrete.readval L F n ["energy_now"; "charge_now"])
                     (filter is_battery batts))),
     wrap (Zsum (map (fun n => Discrete.readval L F n ["current_now"])
                     (filter is_battery batts))))
  /\ Uevent.aggregate F batts
     = (wrap (Zsum (map (fun n =>
                 SearchForInt (parseFile F ("/sys/class/power_supply/" +:+ n +:+ "/uevent"))
                   ["POWER_SUPPLY_ENERGY_FULL"; "POWER_SUPPLY_CHARGE_FULL"])
               (filter is_battery batts))),
        wrap (Zsum (map (fun n =>
                 SearchForInt (parseFile F ("/sys/class/power_supply/" +:+ n +:+ "/uevent"))
                   ["POWER_SUPPLY_ENERGY_NOW"; "POWR_SUPPLY_CHARGE_NOW"])
               (filter is_battery batts))),
        wrap (Zsum (map (fun n =>
                 SearchForInt (parseFile F ("/sys/class/power_supply/" +:+ n +:+ "/uevent"))
                   ["POWER_SUPPLY_CURRENT_NOW"; "POWER_SUPPLY_POWER_NOW"])
               (filter is_battery batts))))
  /\ Discrete.aggregate L F (filter is_battery batts) = Discrete.aggregate L F batts
  /\ Uevent.aggregate F (filter is_battery batts) = Uevent.aggregate F batts.
Proof.
  assert (HD : forall l, Discrete.aggregate L F l
     = (wrap (Zsum (map (fun n => Discrete.readval L F n ["energy_full"; "charge_full"])
                     (filter is_battery l))),
        wrap (Zsum (map (fun n => Discrete.readval L F n ["energy_now"; "charge_now"])
                     (filter is_battery l))),
        wrap (Zsum (map (fun n => Discrete.readval L F n ["current_now"])
                     (filter is_battery l))))).
  { intros l. unfold Discrete.aggregate.
    change (0, 0, 0) with (wrap 0, wrap 0, wrap 0).
    now rewrite Discrete_aggregate_from. }
  assert (HU : forall l, Uevent.aggregate F l
     = (wrap (Zsum (map (fun n =>
                 SearchForInt (parseFile F ("/sys/class/power_supply/" +:+ n +:+ "/uevent"))
                   ["POWER_SUPPLY_ENERGY_FULL"; "POWER_SUPPLY_CHARGE_FULL"])
               (filter is_battery l))),
        wrap (Zsum (map (fun n =>
                 SearchForInt (parseFile F ("/sys/class/power_supply/" +:+ n +:+ "/uevent"))
                   ["POWER_SUPPLY_ENERGY_NOW"; "POWR_SUPPLY_CHARGE_NOW"])
               (filter is_battery l))),
        wrap (Zsum (map (fun n =>
                 SearchForInt (parseFile F ("/sys/class/power_supply/" +:+ n +:+ "/uevent"))
                   ["POWER_SUPPLY_CURRENT_NOW"; "POWER_SUPPLY_POWER_NOW"])
               (filter is_battery l))))).
  { intros l. unfold Uevent.aggregate.
    change (0, 0, 0) with (wrap 0, wrap 0, wrap 0).
    now rewrite Uevent_aggregate_from. }
  assert (Hf : filter is_battery (filter is_battery batts) = filter is_battery batts).
  { induction batts as [|n l IH]; [reflexivity|].
    rewrite filter_cons. destruct (decide (is_battery n)) as [Hn|Hn].
    - rewrite filter_cons, decide_True by exact Hn. now rewrite IH.
    - exact IH. }
  split; [apply HD|]. split; [apply HU|].
  split; [now rewrite (HD (filter is_battery batts)), Hf, <- HD
         |now rewrite (HU (filter is_battery batts)), Hf, <- HU].
Qed.

Lemma Zsum_zero (l : list Z) : (forall x, x ∈ l -> x = 0) -> Zsum l = 0.
Proof.
  induction l as [|x l IH]; intros H; [reflexivity|].
  unfold Zsum in *. cbn [foldr]. rewrite (H x) by apply list_elem_of_here.
  rewrite IH; [reflexivity|]. intros y Hy. apply H. now apply list_elem_of_further.
Qed.

Lemma Uevent_aggregate_full (F : fs) (batts : list string) :
  (Uevent.aggregate F batts).1.1
  = wrap (Zsum (map (fun n =>
                  SearchForInt (parseFile F ("/sys/class/power_supply/" +:+ n +:+ "/uevent"))
                    ["POWER_SUPPLY_ENERGY_FULL"; "POWER_SUPPLY_CHARGE_FULL"])
                (filter is_battery batts))).
Proof.
  unfold Uevent.aggregate. change (0, 0, 0) with (wrap 0, wrap 0, wrap 0).
  now rewrite Uevent_aggregate_from.
Qed.


(** X3.  The first version returns the error marker, and does not look
    at the content of [AC/online], when no battery listed gives a full
    energy: the directory lists no entry named BAT..., or the [uevent] of
    each one cannot be opened or holds neither
    [POWER_SUPPLY_ENERGY_FULL] nor [POWER_SUPPLY_CHARGE_FULL]. *)
Theorem Uevent_no_battery_data (L : golib) (F : fs) (plugged : string) (batts : list string) :
  ReadFile F online_path = Some plugged ->
  ReadDir F "/sys/class/power_supply" = Some batts ->
  (forall name, name ∈ batts -> is_battery name ->
     OpenLines F ("/sys/class/power_supply/" +:+ name +:+ "/uevent") = None
     \/ (values (parseFile F ("/sys/class/power_supply/" +:+ name +:+ "/uevent"))
           !! "POWER_SUPPLY_ENERGY_FULL" = None
         /\ values (parseFile F ("/sys/class/power_supply/" +:+ name +:+ "/uevent"))
              !! "POWER_SUPPLY_CHARGE_FULL" = None)) ->
  Uevent.updatePower L F = Returned powerErr.
Proof.
  intros Hac Hdir Hnone.
  destruct (Uevent.aggregate F batts) as [[enFull enNow] curNow] eqn:Hagg.
  rewrite (Uevent_updatePower_eq L F plugged batts _ _ _ Hac Hdir Hagg).
  assert (E : enFull = 0).
  { pose proof (Uevent_aggregate_full F batts) as Hfull. rewrite Hagg in Hfull.
    cbn [fst] in Hfull. rewrite Hfull, Zsum_zero; [reflexivity|].
    intros x Hx. apply list_elem_of_fmap in Hx as (name & -> & Hin).
    apply list_elem_of_filter in Hin as [Hb Hin].
    apply SearchForInt_none. intros g Hg.
    destruct (Hnone name Hin Hb) as [Hopen|[H1 H2]].
    - unfold parseFile. rewrite Hopen. apply lookup_empty.
    - apply elem_of_cons in Hg as [->|Hg]; [exact H1|].
      apply list_elem_of_singleton in Hg as ->. exact H2. }
  now rewrite E.
Qed.

Lemma Uevent_no_battery_data_witness :
  Uevent.updatePower ref_lib no_battery = Returned powerErr
  /\ Uevent.updatePower ref_lib (mkfs [(online_path, "")]
                                   [("/sys/class/power_supply", ["AC"; "BAT0"])])
     = Returned powerErr.
Proof.
  split.
  - apply (Uevent_no_battery_data ref_lib no_battery ("1" +:+ nl) ["AC"]);
      [reflexivity|reflexivity|].
    intros name Hin Hb. apply list_elem_of_singleton in Hin as ->. destruct Hb.
  - apply (Uevent_no_battery_data ref_lib _ "" ["AC"; "BAT0"]); [reflexivity|reflexivity|].
    intros name Hin Hb. apply elem_of_cons in Hin as [->|Hin]; [destruct Hb|].
    apply list_elem_of_singleton in Hin as ->. left. reflexivity.
Defined.



(** X5.  [readval] returns the integer held by the first candidate file
    that can be read; the candidates after it are not read. *)
Theorem readval_first_readable (L : golib) (F : fs) (name : string)
    (pre post : list string) (f content : string) (n : Z) :
  (forall g, g ∈ pre ->
     ReadFile F ("/sys/class/power_supply/" +:+ name +:+ "/" +:+ g) = None) ->
  ReadFile F ("/sys/class/power_supply/" +:+ name +:+ "/" +:+ f) = Some content ->
  Atoi (TrimSpace L content) = Some n ->
  Discrete.readval L F name (pre ++ f :: post) = n
  /\ int_min <= n <= int_max.
Proof.
  intros Hnone Hf Hatoi. split.
  - unfold Discrete.readval. cbv zeta.
    rewrite (first_readable_first F _ pre post f content).
    + now rewrite Hatoi.
    + intros g Hg. rewrite <- (Hnone g Hg). unfold Discrete.powerSupply.
      now rewrite !string_append_assoc.
    + rewrite <- Hf. unfold Discrete.powerSupply. now rewrite !string_append_assoc.
  - unfold Atoi in Hatoi.
    destruct (TrimSpace L content) as [|c r]; [discriminate|].
    cbv zeta in Hatoi.
    destruct (if (c =? "-")%char || (c =? "+")%char then r else String c r); [discriminate|].
    destruct (parse_digits _ 0) as [v|]; [|discriminate].
    destruct (in_int _) eqn:Hr; [|discriminate].
    injection Hatoi as <-. now apply in_int_true.
Qed.

Lemma readval_first_readable_witness :
  Discrete.readval ref_lib two_batteries "BAT1" ["energy_full"; "charge_full"] = 3000
  /\ Discrete.readval ref_lib two_batteries "BAT1" ["energy_now"; "charge_now"] = 500.
Proof.
  split.
  - apply (readval_first_readable ref_lib two_batteries "BAT1" ["energy_full"] []
             "charge_full" ("3000" +:+ nl) 3000); [|reflexivity|reflexivity].
    intros g Hg. apply list_elem_of_singleton in Hg as ->. reflexivity.
  - apply (readval_first_readable ref_lib two_batteries "BAT1" [] ["charge_now"]
             "energy_now" ("  500" +:+ nl) 500); [|reflexivity|reflexivity].
    intros g Hg. inversion Hg.
Defined.

(** ** The network sampler, continued *)

Lemma net_fold_sums (L : golib) (lines : list string) (rows : list (string * Z * Z)) :
  Forall2 (fun text row =>
             forall vars, (Sscanf_net L text vars).1.1 = row.1.1
                          /\ (counted row -> Sscanf_net L text vars = row))
          lines rows ->
  forall vars a b,
    (fold_left (net_step L) lines (vars, (wrap a, wrap b))).2
    = (wrap (a + Zsum (map (fun r => r.1.2) (filter counted rows))),
       wrap (b + Zsum (map (fun r => r.2) (filter counted rows)))).
Proof.
  induction 1 as [|text row lines rows Hrow _ IH]; intros vars a b.
  - simpl. now rewrite !Z.add_0_r.
  - cbn [fold_left]. unfold net_step at 2.
    destruct (Hrow vars) as [Hdev Hall].
    rewrite filter_cons.
    destruct (decide (counted row)) as [Hc|Hc].
    + rewrite (Hall Hc). destruct row as [[dev rx] tx].
      unfold counted in Hc. cbn [fst snd] in Hc. apply bool_decide_unpack in Hc.
      rewrite decide_True by exact Hc.
      rewrite !wrap_add_l, IH. unfold Zsum. cbn [map foldr fst snd].
      now rewrite !Z.add_assoc.
    + destruct (Sscanf_net L text vars) as [[dev rx] tx]. cbn [fst snd] in Hdev.
      unfold counted in Hc. rewrite <- Hdev in Hc.
      rewrite decide_False by (intros Hin; apply Hc; now apply bool_decide_pack).
      apply IH.
Qed.

(** X6.  When every line of the table either scans to an interface that
    is not counted, or scans in full to a counted interface, the totals
    are the sums, in [int], of the bytes received and sent by the counted
    interfaces; what the other lines hold, or leave in the variables,
    does not matter. *)
Theorem net_totals_sums (L : golib) (lines : list string) (rows : list (string * Z * Z)) :
  Forall2 (fun text row =>
             forall vars, (Sscanf_net L text vars).1.1 = row.1.1
                          /\ (counted row -> Sscanf_net L text vars = row))
          lines rows ->
  net_totals L lines
  = (wrap (Zsum (map (fun r => r.1.2) (filter counted rows))),
     wrap (Zsum (map (fun r => r.2) (filter counted rows)))).
Proof.
  intros H. unfold net_totals.
  change (0, 0) with (wrap 0, wrap 0). now rewrite (net_fold_sums L lines rows H).
Qed.

Lemma net_totals_sums_witness :
  net_totals ref_lib ["Inter-|   Receive"; "    lo: 90 1 0 0 0 0 0 0 90 1";
                      "wlp4s0: 2548 5 0 0 0 0 0 0 700 6";
                      "enp0s25: 1000 5 0 0 0 0 0 0 0 6"]
  = (wrap (Zsum [2548; 1000]), wrap (Zsum [700; 0])).
Proof.
  apply (net_totals_sums ref_lib _
           [("Inter-|", 0, 0); ("lo:", 90, 90); ("wlp4s0:", 2548, 700); ("enp0s25:", 1000, 0)]).
  constructor; [|constructor; [|constructor; [|constructor; [|constructor]]]];
    intros [[d r] t]; (split; [reflexivity|]); intros Hc;
    try reflexivity; destruct Hc.
Defined.

(** X7.  The rates of a sample are those of the differences between its
    totals and the totals of the sample before it; what was stored before
    that one plays no part.  The arrows of the first version show where
    these differences are not zero. *)
Theorem consecutive_samples (L : golib) (F1 F2 : fs) (st : net_state)
    (l1 l2 : list string) :
  OpenLines F1 "/proc/net/dev" = Some l1 ->
  OpenLines F2 "/proc/net/dev" = Some l2 ->
  Discrete.updateNetUse L F2 (Discrete.updateNetUse L F1 st).2
  = (Discrete.fixed "RX" (int_sub (net_totals L l2).1 (net_totals L l1).1) +:+ " "
       +:+ Discrete.fixed "TX" (int_sub (net_totals L l2).2 (net_totals L l1).2),
     {| rxOld := (net_totals L l2).1; txOld := (net_totals L l2).2 |})
  /\ Uevent.updateNetUse L F2 (Uevent.updateNetUse L F1 st).2
     = ("NET "
          +:+ (if int_sub (net_totals L l2).1 (net_totals L l1).1 =? 0
               then " " else Uevent.arrow_down)
          +:+ (if int_sub (net_totals L l2).2 (net_totals L l1).2 =? 0
               then " " else Uevent.arrow_up),
        {| rxOld := (net_totals L l2).1; txOld := (net_totals L l2).2 |}).
Proof.
  intros H1 H2.
  destruct (updateNetUse_open L F1 st l1 H1) as [-> ->]. cbn [snd].
  destruct (updateNetUse_open L F2 {| rxOld := (net_totals L l1).1;
                                     txOld := (net_totals L l1).2 |} l2 H2) as [-> ->].
  split; reflexivity.
Qed.

Lemma consecutive_samples_witness :
  (Discrete.updateNetUse ref_lib net_file_later
     (Discrete.updateNetUse ref_lib net_file {| rxOld := 77; txOld := 5 |}).2).1
  = "RX 3.0KiB/s TX100B/s"
  /\ (Uevent.updateNetUse ref_lib net_file_later
        (Uevent.updateNetUse ref_lib net_file {| rxOld := 77; txOld := 5 |}).2).1
     = "NET " +:+ Uevent.arrow_down +:+ Uevent.arrow_up.
Proof.
  destruct (consecutive_samples ref_lib net_file net_file_later {| rxOld := 77; txOld := 5 |}
              _ _ eq_refl eq_refl) as [-> ->].
  split; reflexivity.
Defined.

(** X8.  A sample that fails to open the table changes nothing for the
    next one: its rates are still taken from the last totals read. *)
Theorem failed_sample_keeps_baseline (L : golib) (F1 Fbad F2 : fs) (st : net_state)
    (l1 : list string) :
  OpenLines F1 "/proc/net/dev" = Some l1 ->
  OpenLines Fbad "/proc/net/dev" = None ->
  Discrete.updateNetUse L F2
    (Discrete.updateNetUse L Fbad (Discrete.updateNetUse L F1 st).2).2
  = Discrete.updateNetUse L F2 (Discrete.updateNetUse L F1 st).2
  /\ Uevent.updateNetUse L F2
       (Uevent.updateNetUse L Fbad (Uevent.updateNetUse L F1 st).2).2
     = Uevent.updateNetUse L F2 (Uevent.updateNetUse L F1 st).2.
Proof.
  intros H1 Hbad.
  destruct (updateNetUse_closed L Fbad (Discrete.updateNetUse L F1 st).2 Hbad) as [_ ->].
  destruct (updateNetUse_closed L Fbad (Uevent.updateNetUse L F1 st).2 Hbad) as [-> _].
  split; reflexivity.
Qed.

Lemma failed_sample_keeps_baseline_witness :
  (Discrete.updateNetUse ref_lib net_file_later
     (Discrete.updateNetUse ref_lib no_file
        (Discrete.updateNetUse ref_lib net_file net_init).2).2).1
  = "RX 3.0KiB/s TX100B/s".
Proof.
  rewrite (proj1 (failed_sample_keeps_baseline ref_lib net_file no_file net_file_later
                    net_init _ eq_refl eq_refl)).
  reflexivity.
Defined.

(** ** The rate formatter, continued *)

Lemma fixed_unfold (pre : string) (rate : Z) :
  0 <= rate < 2 ^ 63 ->
  Discrete.fixed pre rate
  = if 1048575968 <=? rate then c04 +:+ pre +:+ c03 +:+ "ERR" +:+ c01
    else if 1024000 <=? rate
    then c04 +:+ pre +:+ c01
           +:+ Discrete.formated (f32_div (float32_of_int rate) (float32_of_int (1024 * 1024)))
           +:+ "MiB/s"
    else if 1000 <=? rate
    then pre +:+ Discrete.formated (f32_div (float32_of_int rate) (float32_of_int 1024))
           +:+ "KiB/s"
    else pre +:+ Discrete.formated (float32_of_int rate) +:+ "B/s".
Proof.
  intros Hr. unfold Discrete.fixed, floatSeparator.
  destruct (Z.ltb_spec rate 0); [lia|].
  change (1000 * 1024) with (Z.pos 1024000).
  rewrite f32_geb_above by exact Hr.
  rewrite (f32_geb_below_24_bits rate 1024000) by (try exact Hr; discriminate).
  rewrite (f32_geb_below_24_bits rate 1000) by (try exact Hr; discriminate).
  rewrite !Replace1_same.
  destruct (1048575968 <=? rate); [reflexivity|].
  destruct (Z.pos 1024000 <=? rate); [now rewrite !string_append_assoc|].
  reflexivity.
Qed.

Lemma holds_below_spec (f : Z -> bool) (n : nat) :
  holds_below f n = true -> forall k, 0 <= k < Z.of_nat n -> f k = true.
Proof.
  unfold holds_below. rewrite forallb_forall. intros H k Hk.
  apply H. apply in_map_iff. exists (Z.to_nat k). split; [lia|].
  apply in_seq. lia.
Qed.

Lemma formated_units :
  holds_below (fun k => String.eqb (Discrete.formated (float32_of_int k)) (show_units k)) 1000
  = true.
Proof. vm_compute. reflexivity. Qed.

Lemma formated_kib :
  holds_below (fun k => String.eqb
                          (Discrete.formated
                             (f32_div (float32_of_int (1024 * k)) (float32_of_int 1024)))
                          (show_units k)) 1000
  = true.
Proof. vm_compute. reflexivity. Qed.

Lemma formated_mib :
  holds_below (fun k => String.eqb
                          (Discrete.formated
                             (f32_div (float32_of_int (1024 * 1024 * k))
                                (float32_of_int (1024 * 1024))))
                          (show_units k)) 1000
  = true.
Proof. vm_compute. reflexivity. Qed.

(** X9.  A rate below 1000 is printed as the whole number it is: its
    digits from 100 on, with [.0] after them below 100, and a blank
    before them below 10; the number takes three characters from 100 on
    and four below. *)
Theorem fixed_units (pre : string) (rate : Z) :
  0 <= rate < 1000 ->
  Discrete.fixed pre rate = pre +:+ show_units rate +:+ "B/s"
  /\ String.length (show_units rate) = if 100 <=? rate then 3%nat else 4%nat.
Proof.
  intros Hr. split.
  - rewrite fixed_unfold by lia.
    destruct (Z.leb_spec 1048575968 rate); [lia|].
    destruct (Z.leb_spec 1024000 rate); [lia|].
    destruct (Z.leb_spec 1000 rate); [lia|].
    pose proof (holds_below_spec _ _ formated_units rate ltac:(lia)) as E.
    apply String.eqb_eq in E. now rewrite E.
  - assert (E : holds_below (fun k => Nat.eqb (String.length (show_units k))
                                        (if 100 <=? k then 3%nat else 4%nat)) 1000 = true)
      by (vm_compute; reflexivity).
    apply Nat.eqb_eq. apply (holds_below_spec _ _ E). lia.
Qed.

Lemma fixed_units_witness :
  Discrete.fixed "RX" 7 = "RX 7.0B/s" /\ Discrete.fixed "RX" 42 = "RX42.0B/s"
  /\ Discrete.fixed "RX" 999 = "RX999B/s".
Proof.
  split; [|split].
  - exact (eq_trans (proj1 (fixed_units "RX" 7 ltac:(lia))) eq_refl).
  - exact (eq_trans (proj1 (fixed_units "RX" 42 ltac:(lia))) eq_refl).
  - exact (eq_trans (proj1 (fixed_units "RX" 999 ltac:(lia))) eq_refl).
Defined.

(** X10.  Scaling is exact on whole multiples of the unit: [k] times
    1024, for [k] from 1 to 999, is printed as [k] with the suffix KiB/s,
    and [k] times 1024 * 1024 as [k] with the suffix MiB/s, between the
    colour escapes 4 and 1 put around the label. *)
Theorem fixed_whole_multiples (pre : string) (k : Z) :
  1 <= k <= 999 ->
  Discrete.fixed pre (1024 * k) = pre +:+ show_units k +:+ "KiB/s"
  /\ Discrete.fixed pre (1024 * 1024 * k)
     = c04 +:+ pre +:+ c01 +:+ show_units k +:+ "MiB/s".
Proof.
  intros Hk. split.
  - rewrite fixed_unfold by lia.
    destruct (Z.leb_spec 1048575968 (1024 * k)); [lia|].
    destruct (Z.leb_spec 1024000 (1024 * k)); [lia|].
    destruct (Z.leb_spec 1000 (1024 * k)); [|lia].
    pose proof (holds_below_spec _ _ formated_kib k ltac:(lia)) as E.
    apply String.eqb_eq in E. now rewrite E.
  - rewrite fixed_unfold by lia.
    destruct (Z.leb_spec 1048575968 (1024 * 1024 * k)); [lia|].
    destruct (Z.leb_spec 1024000 (1024 * 1024 * k)); [|lia].
    pose proof (holds_below_spec _ _ formated_mib k ltac:(lia)) as E.
    apply String.eqb_eq in E. now rewrite E.
Qed.

Lemma fixed_whole_multiples_witness :
  Discrete.fixed "TX" 5120 = "TX 5.0KiB/s"
  /\ Discrete.fixed "TX" 104857600 = c04 +:+ "TX" +:+ c01 +:+ "100MiB/s".
Proof.
  split.
  - exact (eq_trans (proj1 (fixed_whole_multiples "TX" 5 ltac:(lia))) eq_refl).
  - exact (eq_trans (proj2 (fixed_whole_multiples "TX" 100 ltac:(lia))) eq_refl).
Defined.

Lemma int_sub_diag (z : Z) : int_sub z z = 0.
Proof. unfold int_sub. now rewrite Z.sub_diag. Qed.

(** X11.  Two samples in a row that read the same totals show no
    traffic: a rate of zero on both sides in the second version, two
    blanks for the arrows in the first. *)
Theorem unchanged_totals_show_no_traffic (L : golib) (F1 F2 : fs) (st : net_state)
    (l1 l2 : list string) :
  OpenLines F1 "/proc/net/dev" = Some l1 ->
  OpenLines F2 "/proc/net/dev" = Some l2 ->
  net_totals L l2 = net_totals L l1 ->
  (Discrete.updateNetUse L F2 (Discrete.updateNetUse L F1 st).2).1
  = "RX 0.0B/s TX 0.0B/s"
  /\ (Uevent.updateNetUse L F2 (Uevent.updateNetUse L F1 st).2).1 = "NET   ".
Proof.
  intros H1 H2 E.
  destruct (updateNetUse_open L F1 st l1 H1) as [-> ->]. cbn [snd].
  destruct (updateNetUse_open L F2 {| rxOld := (net_totals L l1).1;
                                     txOld := (net_totals L l1).2 |} l2 H2) as [-> ->].
  cbn [fst rxOld txOld]. rewrite E, !int_sub_diag.
  split; [|reflexivity].
  now rewrite !fixed_unfold by lia.
Qed.

Lemma unchanged_totals_show_no_traffic_witness :
  (Discrete.updateNetUse ref_lib net_file (Discrete.updateNetUse ref_lib net_file net_init).2).1
  = "RX 0.0B/s TX 0.0B/s".
Proof.
  apply (proj1 (unchanged_totals_show_no_traffic ref_lib net_file net_file net_init
                  _ _ eq_refl eq_refl eq_refl)).
Defined.

(** ** The memory sampler, continued *)

Lemma mem_loop_done (L : golib) (lines : list string) (total used : Z) :
  mem_loop L lines total used 15 = Some (total, used).
Proof. destruct lines; reflexivity. Qed.

Lemma mem_loop_skip (L : golib) (xs rest : list string) (total used done : Z) :
  (forall x, x ∈ xs -> exists p v, Sscanf_mem L x = Some (p, v) /\ p ∉ mem_fields) ->
  mem_loop L (xs ++ rest) total used done = mem_loop L rest total used done.
Proof.
  intros Hxs. destruct (Z.eqb_spec done 15) as [->|Hd]; [now rewrite !mem_loop_done|].
  induction xs as [|x xs IH]; [reflexivity|].
  cbn [app mem_loop]. destruct (Z.eqb_spec done 15); [contradiction|].
  destruct (Hxs x (list_elem_of_here _ _)) as (p & v & -> & Hp).
  assert (Hne : forall f, f ∈ mem_fields -> String.eqb p f = false).
  { intros f Hf. apply String.eqb_neq. intros ->. contradiction. }
  unfold mem_fields in Hne.
  rewrite !Hne by (repeat constructor).
  apply IH. intros y Hy. apply Hxs. now apply list_elem_of_further.
Qed.

Lemma mem_loop_field (L : golib) (x : string) (rest : list string) (total used done v : Z)
    (p : string) :
  Sscanf_mem L x = Some (p, v) -> done <> 15 ->
  mem_loop L (x :: rest) total used done
  = if String.eqb p "MemTotal:" then mem_loop L rest v (int_add used v) (Z.lor done 1)
    else if String.eqb p "MemFree:" then mem_loop L rest total (int_sub used v) (Z.lor done 2)
    else if String.eqb p "Buffers:" then mem_loop L rest total (int_sub used v) (Z.lor done 4)
    else if String.eqb p "Cached:" then mem_loop L rest total (int_sub used v) (Z.lor done 8)
    else mem_loop L rest total used done.
Proof.
  intros Hs Hd. cbn [mem_loop]. destruct (Z.eqb_spec done 15); [contradiction|].
  now rewrite Hs.
Qed.

(** X12.  On a table that gives [MemTotal:], [MemFree:], [Buffers:] and
    [Cached:] in this order, with any lines for other fields around them,
    the sampler shows the share of the total that is neither free, nor
    buffers, nor cache, as a whole percentage between 0 and 100; the
    lines after [Cached:] are not read, so nothing in them is an error. *)
Theorem mem_usual_table (L : golib) (F : fs)
    (xs0 xs1 xs2 xs3 rest : list string) (lt lf lb lc : string) (T Fr B C : Z) :
  OpenLines F "/proc/meminfo"
  = Some (xs0 ++ lt :: xs1 ++ lf :: xs2 ++ lb :: xs3 ++ lc :: rest)%list ->
  (forall x, x ∈ (xs0 ++ xs1 ++ xs2 ++ xs3)%list ->
     exists p v, Sscanf_mem L x = Some (p, v) /\ p ∉ mem_fields) ->
  Sscanf_mem L lt = Some ("MemTotal:", T) ->
  Sscanf_mem L lf = Some ("MemFree:", Fr) ->
  Sscanf_mem L lb = Some ("Buffers:", B) ->
  Sscanf_mem L lc = Some ("Cached:", C) ->
  0 <= Fr -> 0 <= B -> 0 <= C -> Fr + B + C <= T -> 0 < T -> T * 100 <= int_max ->
  updateMemUse L F = Returned (colored memSign ((T - Fr - B - C) * 100 / T))
  /\ 0 <= (T - Fr - B - C) * 100 / T <= 100.
Proof.
  intros Hopen Hxs Ht Hf Hb Hc HFr HB HC Hsum HT Hmax.
  assert (Hin : forall l : list string,
                (forall x, x ∈ l -> x ∈ (xs0 ++ xs1 ++ xs2 ++ xs3)%list) ->
                forall x, x ∈ l -> exists p v, Sscanf_mem L x = Some (p, v) /\ p ∉ mem_fields).
  { intros l Hl x Hx. apply Hxs, Hl, Hx. }
  assert (Hloop : mem_loop L (xs0 ++ lt :: xs1 ++ lf :: xs2 ++ lb :: xs3 ++ lc :: rest) 0 0 0
                  = Some (T, T - Fr - B - C)).
  { rewrite mem_loop_skip
      by (apply Hin; intros x Hx; rewrite !elem_of_app; tauto).
    rewrite (mem_loop_field L lt _ 0 0 0 T _ Ht) by discriminate. cbn [String.eqb Ascii.eqb Bool.eqb].
    rewrite mem_loop_skip
      by (apply Hin; intros x Hx; rewrite !elem_of_app; tauto).
    rewrite (mem_loop_field L lf _ _ _ _ Fr _ Hf) by discriminate. cbn [String.eqb Ascii.eqb Bool.eqb].
    rewrite mem_loop_skip
      by (apply Hin; intros x Hx; rewrite !elem_of_app; tauto).
    rewrite (mem_loop_field L lb _ _ _ _ B _ Hb) by discriminate. cbn [String.eqb Ascii.eqb Bool.eqb].
    rewrite mem_loop_skip
      by (apply Hin; intros x Hx; rewrite !elem_of_app; tauto).
    rewrite (mem_loop_field L lc _ _ _ _ C _ Hc) by discriminate. cbn [String.eqb Ascii.eqb Bool.eqb].
    change (Z.lor (Z.lor (Z.lor (Z.lor 0 1) 2) 4) 8) with 15.
    rewrite mem_loop_done. f_equal. f_equal.
    unfold int_add, int_sub, int_min, int_max in *.
    rewrite (wrap_id (0 + T)) by (unfold int_min, int_max; lia).
    rewrite (wrap_id (0 + T - Fr)) by (unfold int_min, int_max; lia).
    rewrite (wrap_id (0 + T - Fr - B)) by (unfold int_min, int_max; lia).
    rewrite wrap_id by (unfold int_min, int_max; lia). lia. }
  assert (Hused : 0 <= T - Fr - B - C <= T) by lia.
  assert (Hq : 0 <= (T - Fr - B - C) * 100 / T <= 100).
  { split; [apply Z.div_pos; lia|].
    apply Z.div_le_upper_bound; lia. }
  split; [|exact Hq].
  unfold updateMemUse. rewrite Hopen, Hloop. unfold int_div, int_mul.
  destruct (Z.eqb_spec T 0); [lia|].
  unfold int_max in Hmax.
  rewrite (wrap_id ((T - Fr - B - C) * 100)) by (unfold int_min, int_max; nia).
  rewrite Z.quot_div_nonneg by lia.
  rewrite wrap_id by (unfold int_min, int_max; lia).
  reflexivity.
Qed.

Lemma mem_usual_table_witness :
  updateMemUse ref_lib meminfo_file = Returned "MEM 40".
Proof.
  exact (eq_trans
           (proj1 (mem_usual_table ref_lib meminfo_file [] [] ["MemAvailable: 600 kB"] []
                     ["SwapCached:"] "MemTotal: 1000 kB" "MemFree: 400 kB"
                     "Buffers: 100 kB" "Cached: 100 kB" 1000 400 100 100
                     eq_refl
                     ltac:(intros x Hx; apply list_elem_of_singleton in Hx as ->;
                           exists "MemAvailable:", 600; split; [reflexivity|];
                           intros Hin; repeat (apply elem_of_cons in Hin as [Hin|Hin];
                                                [discriminate|]); inversion Hin)
                     eq_refl eq_refl eq_refl eq_refl
                     ltac:(lia) ltac:(lia) ltac:(lia) ltac:(lia) ltac:(lia)
                     ltac:(unfold int_max; lia)))
           eq_refl).
Defined.

Lemma mem_loop_incomplete (L : golib) (field : string) (flag : Z)
    (xs : list string) (bad : string) (rest : list string) :
  (field = "MemTotal:" /\ flag = 1) \/ (field = "MemFree:" /\ flag = 2)
  \/ (field = "Buffers:" /\ flag = 4) \/ (field = "Cached:" /\ flag = 8) ->
  (forall x, x ∈ xs -> exists p v, Sscanf_mem L x = Some (p, v) /\ p <> field) ->
  Sscanf_mem L bad = None ->
  forall total used done,
    Z.land done flag = 0 -> mem_loop L (xs ++ bad :: rest) total used done = None.
Proof.
  intros Hfield Hxs Hbad.
  assert (Hflag : Z.land 15 flag <> 0)
    by (destruct Hfield as [[_ ->]|[[_ ->]|[[_ ->]|[_ ->]]]]; discriminate).
  induction xs as [|x xs IH]; intros total used done Hd.
  - cbn [app mem_loop]. destruct (Z.eqb_spec done 15) as [->|_]; [contradiction|].
    now rewrite Hbad.
  - assert (Hne : done <> 15) by (intros ->; contradiction).
    destruct (Hxs x (list_elem_of_here _ _)) as (p & v & Hs & Hp).
    cbn [app]. rewrite (mem_loop_field L x _ total used done v p Hs Hne).
    assert (Hrest : forall y, y ∈ xs -> exists p v, Sscanf_mem L y = Some (p, v) /\ p <> field)
      by (intros y Hy; apply Hxs; now apply list_elem_of_further).
    assert (Hstep : forall f, f <> flag -> Z.land f flag = 0 ->
                    Z.land (Z.lor done f) flag = 0)
      by (intros f _ Hf; now rewrite Z.land_lor_distr_l, Hd, Hf).
    destruct (String.eqb_spec p "MemTotal:") as [->|_].
    { apply (IH Hrest). apply Hstep;
        destruct Hfield as [[-> ->]|[[_ ->]|[[_ ->]|[_ ->]]]];
        try contradiction; (discriminate || reflexivity). }
    destruct (String.eqb_spec p "MemFree:") as [->|_].
    { apply (IH Hrest). apply Hstep;
        destruct Hfield as [[_ ->]|[[-> ->]|[[_ ->]|[_ ->]]]];
        try contradiction; (discriminate || reflexivity). }
    destruct (String.eqb_spec p "Buffers:") as [->|_].
    { apply (IH Hrest). apply Hstep;
        destruct Hfield as [[_ ->]|[[_ ->]|[[-> ->]|[_ ->]]]];
        try contradiction; (discriminate || reflexivity). }
    destruct (String.eqb_spec p "Cached:") as [->|_].
    { apply (IH Hrest). apply Hstep;
        destruct Hfield as [[_ ->]|[[_ ->]|[[_ ->]|[-> ->]]]];
        try contradiction; (discriminate || reflexivity). }
    now apply (IH Hrest).
Qed.

(** X13.  A line that does not scan, met while one of the four fields
    has not been seen yet, makes the sampler return its error marker,
    whatever the lines before it gave and whatever follows. *)
Theorem mem_incomplete_error (L : golib) (F : fs) (field : string)
    (xs : list string) (bad : string) (rest : list string) :
  OpenLines F "/proc/meminfo" = Some (xs ++ bad :: rest)%list ->
  field ∈ mem_fields ->
  (forall x, x ∈ xs -> exists p v, Sscanf_mem L x = Some (p, v) /\ p <> field) ->
  Sscanf_mem L bad = None ->
  updateMemUse L F = Returned (memSign +:+ c03 +:+ "ERR" +:+ c01).
Proof.
  intros Hopen Hfield Hxs Hbad. unfold updateMemUse. rewrite Hopen.
  assert (Hf : exists flag,
             ((field = "MemTotal:" /\ flag = 1) \/ (field = "MemFree:" /\ flag = 2)
              \/ (field = "Buffers:" /\ flag = 4) \/ (field = "Cached:" /\ flag = 8))).
  { unfold mem_fields in Hfield.
    apply elem_of_cons in Hfield as [->|Hfield]; [exists 1; tauto|].
    apply elem_of_cons in Hfield as [->|Hfield]; [exists 2; tauto|].
    apply elem_of_cons in Hfield as [->|Hfield]; [exists 4; tauto|].
    apply list_elem_of_singleton in Hfield as ->. exists 8. tauto. }
  destruct Hf as [flag Hf].
  now rewrite (mem_loop_incomplete L field flag xs bad rest Hf Hxs Hbad 0 0 0 eq_refl).
Qed.

Lemma mem_incomplete_error_witness :
  updateMemUse ref_lib broken_meminfo_file = Returned (memSign +:+ c03 +:+ "ERR" +:+ c01).
Proof.
  apply (mem_incomplete_error ref_lib broken_meminfo_file "Cached:"
           ["MemTotal: 1000 kB"] "MemFree:" ["Buffers: 100 kB"]);
    [reflexivity|repeat constructor| |reflexivity].
  intros x Hx. apply list_elem_of_singleton in Hx as ->.
  exists "MemTotal:", 1000. split; [reflexivity|discriminate].
Defined.

(** ** The power sampler, continued *)

Lemma percent_bounds (enNow enFull : Z) :
  0 <= enNow <= enFull -> 0 < enFull -> enNow * 100 <= int_max ->
  percent enNow enFull = enNow * 100 / enFull /\ 0 <= enNow * 100 / enFull <= 100.
Proof.
  intros Hnow Hfull Hmax.
  rewrite percent_in_range by (unfold int_min, int_max in *; lia).
  rewrite Z.quot_div_nonneg by lia.
  split; [reflexivity|]. split; [apply Z.div_pos; lia|].
  apply Z.div_le_upper_bound; lia.
Qed.

(** X14.  When the energy now of the batteries lies between 0 and their
    full energy, both versions show a percentage between 0 and 100: the
    whole part of [enNow * 100 / enFull]. *)
Theorem percentage_within_bounds (L : golib) (F : fs) (plugged : string)
    (enFull enNow curNow : Z) :
  ReadFile F online_path = Some plugged ->
  0 <= enNow <= enFull -> 0 < enFull -> enNow * 100 <= int_max ->
  0 <= enNow * 100 / enFull <= 100
  /\ (forall batts,
        ReadDir F "/sys/class/power_supply/" = Some batts ->
        Discrete.aggregate L F batts = (enFull, enNow, curNow) ->
        exists icon suffix,
          Discrete.updatePower L F
          = Returned (power_line icon (enNow * 100 / enFull) suffix))
  /\ (forall batts,
        plugged <> "" ->
        ReadDir F "/sys/class/power_supply" = Some batts ->
        Uevent.aggregate F batts = (enFull, enNow, curNow) ->
        exists icon suffix,
          Uevent.updatePower L F
          = Returned (power_line icon (enNow * 100 / enFull) suffix)).
Proof.
  intros Hac Hnow Hfull Hmax.
  destruct (percent_bounds enNow enFull Hnow Hfull Hmax) as [E Hb].
  split; [exact Hb|]. split.
  - intros batts Hdir Hagg.
    rewrite (Discrete_updatePower_eq L F plugged batts _ _ _ Hac Hdir Hagg), E.
    destruct (Z.eqb_spec enFull 0); [lia|]. eexists _, _. reflexivity.
  - intros batts Hne Hdir Hagg.
    rewrite (Uevent_updatePower_eq L F plugged batts _ _ _ Hac Hdir Hagg), E.
    destruct (Z.eqb_spec enFull 0); [lia|].
    destruct plugged as [|first rest]; [contradiction|]. eexists _, _. reflexivity.
Qed.

Lemma percentage_within_bounds_witness :
  exists icon suffix,
    Discrete.updatePower ref_lib two_batteries = Returned (power_line icon 30 suffix).
Proof.
  apply (proj1 (proj2 (percentage_within_bounds ref_lib two_batteries ("0" +:+ nl)
                         5000 1500 0 eq_refl ltac:(lia) ltac:(lia)
                         ltac:(unfold int_max; lia)))
           ["AC"; "BAT0"; "BAT1"; "ucsi-source-psy"]); reflexivity.
Defined.

(** ** The status line *)

(** X15.  When none of the five files can be read, a turn of the loop of
    either version ends without panic: the line is an empty host name,
    the four error markers and the time, with the separator between
    them, and the previous totals are kept. *)
Theorem status_all_unavailable (C : loadlib) (L : golib) (F : fs) (st : net_state)
    (now : string) :
  ReadFile F "/etc/hostname" = None ->
  OpenLines F "/proc/net/dev" = None ->
  ReadFile F "/proc/loadavg" = None ->
  OpenLines F "/proc/meminfo" = None ->
  ReadFile F online_path = None ->
  status Discrete.updateNetUse Discrete.updatePower C L F st now
  = inr (" | RX " +:+ c03 +:+ "ERR" +:+ c01 +:+ " TX " +:+ c03 +:+ "ERR" +:+ c01
           +:+ " | CPU" +:+ c03 +:+ "ERR" +:+ c01
           +:+ " | MEM" +:+ c03 +:+ "ERR" +:+ c01
           +:+ " | " +:+ powerErr +:+ " | " +:+ now, st)
  /\ status Uevent.updateNetUse Uevent.updatePower C L F st now
     = inr (" | NET " +:+ c03 +:+ "ERR" +:+ c01
              +:+ " | CPU" +:+ c03 +:+ "ERR" +:+ c01
              +:+ " | MEM" +:+ c03 +:+ "ERR" +:+ c01
              +:+ " | " +:+ powerErr +:+ " | " +:+ now, st).
Proof.
  intros Hhost Hnet Hload Hmem Hac.
  destruct (updateNetUse_closed L F st Hnet) as [EU ED].
  unfold status, getHostname, updateCPUUse, updateMemUse.
  rewrite Hhost, Hload, Hmem, EU, ED.
  unfold Discrete.updatePower, Uevent.updatePower.
  change (Discrete.powerSupply +:+ "AC/online") with online_path.
  change (Uevent.powerSupply +:+ "/AC/online") with online_path.
  rewrite Hac. split; reflexivity.
Qed.

Lemma status_all_unavailable_witness :
  status Discrete.updateNetUse Discrete.updatePower ref_load ref_lib no_file net_init
    "Sat 31 | 12:00:00"
  = inr (" | RX " +:+ c03 +:+ "ERR" +:+ c01 +:+ " TX " +:+ c03 +:+ "ERR" +:+ c01
           +:+ " | CPU" +:+ c03 +:+ "ERR" +:+ c01
           +:+ " | MEM" +:+ c03 +:+ "ERR" +:+ c01
           +:+ " | " +:+ powerErr +:+ " | " +:+ "Sat 31 | 12:00:00", net_init).
Proof.
  apply (proj1 (status_all_unavailable ref_load ref_lib no_file net_init "Sat 31 | 12:00:00"
                  eq_refl eq_refl eq_refl eq_refl eq_refl)).
Defined.





(** ** The time left and the lines that do not scan *)

(** X17.  When the estimate is a number of minutes that is not negative,
    the suffix of the power line shows its hours and its minutes, the
    minutes on two digits from 00 to 59; the two add up to the estimate. *)
Theorem time_left_hours_minutes (L : golib) (enNow curNow : Z) :
  0 <= time_in_min L enNow curNow ->
  time_left L enNow curNow
  = " [" +:+ itoa (time_in_min L enNow curNow / 60) +:+ ":"
      +:+ fmt_02d (time_in_min L enNow curNow mod 60) +:+ "]"
  /\ String.length (fmt_02d (time_in_min L enNow curNow mod 60)) = 2%nat
  /\ time_in_min L enNow curNow / 60 * 60 + time_in_min L enNow curNow mod 60
     = time_in_min L enNow curNow.
Proof.
  intros Ht. set (t := time_in_min L enNow curNow) in *.
  pose proof (Z.mod_pos_bound t 60 ltac:(lia)) as Hm.
  split; [|split].
  - rewrite time_left_rem. fold t.
    rewrite Z.quot_div_nonneg, Z.rem_mod_nonneg by lia. reflexivity.
  - assert (E : holds_below (fun k => Nat.eqb (String.length (fmt_02d k)) 2) 60 = true)
      by (vm_compute; reflexivity).
    apply Nat.eqb_eq. apply (holds_below_spec _ _ E). lia.
  - pose proof (Z.div_mod t 60 ltac:(lia)). lia.
Qed.

Lemma time_left_hours_minutes_witness :
  time_left ref_lib 1000 300 = " [3:20]".
Proof.
  exact (eq_trans (proj1 (time_left_hours_minutes ref_lib 1000 300
                            ltac:(vm_compute; discriminate))) eq_refl).
Defined.

(** X18.  A line on which the scan fails at once leaves [dev], [rx] and
    [tx] as the line before set them; when that was a counted interface,
    its bytes are added to the totals a second time. *)
Theorem unscanned_line_counts_again (L : golib) (lines : list string) (text : string)
    (dev : string) (rx tx : Z) :
  (fold_left (net_step L) lines (("", 0, 0), (0, 0))).1 = (dev, rx, tx) ->
  dev ∈ netDevs ->
  Sscanf_net L text (dev, rx, tx) = (dev, rx, tx) ->
  net_totals L (lines ++ [text])
  = (int_add (net_totals L lines).1 rx, int_add (net_totals L lines).2 tx).
Proof.
  intros Hvars Hdev Hscan. unfold net_totals. rewrite fold_left_app. cbn [fold_left].
  destruct (fold_left (net_step L) lines (("", 0, 0), (0, 0))) as [vars [rxNow txNow]].
  cbn [fst snd] in *. subst vars. unfold net_step. rewrite Hscan.
  now rewrite decide_True by exact Hdev.
Qed.

Lemma unscanned_line_counts_again_witness :
  net_totals ref_lib ["wlp4s0: 500 5 0 0 0 0 0 0 600 6"; ""] = (1000, 1200).
Proof.
  exact (eq_trans
           (unscanned_line_counts_again ref_lib ["wlp4s0: 500 5 0 0 0 0 0 0 600 6"] ""
              "wlp4s0:" 500 600 eq_refl ltac:(vm_compute; reflexivity) eq_refl)
           eq_refl).
Defined.
